(** * Inferno CLI: the Docker bootstrap and the Python bridge

    A shallow embedding of the TypeScript sources of the Inferno CLI
    ([utils/docker.ts], [utils/bridge.ts], [components/TargetInput.tsx],
    [components/ScanDisplay.tsx], [components/DockerCheck.tsx],
    [index.tsx]) and the properties of its readiness state machine and of
    its event stream.

    Conventions of the embedding.
    - A JavaScript value is a [JSValue]; the events handed to [onEvent] are
      whatever [JSON.parse] returned, so they are [JSValue]s and not a
      typed record: the TypeScript annotation [ScanEvent] is erased at run
      time.
    - Numbers are modelled by [Z]: timestamps in whole seconds, within
      the range in which JavaScript prints an integer by its decimal
      digits.
    - Strings are sequences of one-byte characters; the white space of
      [String.prototype.trim] is the ASCII white space.
    - Asynchronous code is modelled by explicit state passing: the
      Docker bootstrap in a reader/state/error monad over a scripted
      environment, the bridge as a step function over the ticks of the
      event loop. *)

From Stdlib Require Import String Ascii ZArith List Bool Lia.
From stdpp Require Import base gmap strings list pretty.
Import ListNotations.
Open Scope string_scope.
Open Scope list_scope.
Set Warnings "-register-all".

(** ** JavaScript values *)

Module JS.

Inductive JSValue : Type :=
| JUndefined
| JNull
| JBool (b : bool)
| JNum (n : Z)
| JStr (s : string)
| JArr (items : list JSValue)
| JObj (props : list (string * JSValue)).

(** Own properties of an object literal or of a parsed object, in
    insertion order.  Reading takes the first binding of the key;
    [setProp] overwrites in place, so that the lists built by it have no
    duplicate key. *)
Fixpoint lookupProp (k : string) (props : list (string * JSValue)) : JSValue :=
  match props with
  | [] => JUndefined
  | (k', v) :: rest => if String.eqb k k' then v else lookupProp k rest
  end.

Fixpoint setProp (k : string) (v : JSValue) (props : list (string * JSValue))
  : list (string * JSValue) :=
  match props with
  | [] => [(k, v)]
  | (k', v') :: rest =>
      if String.eqb k k' then (k', v) :: rest else (k', v') :: setProp k v rest
  end.

(** [v.k] for the keys the program reads ([type], [timestamp], [message]):
    a TypeError ([None]) on [undefined] and [null], [undefined] on the
    other primitives and on arrays, the own property on an object. *)
Definition getProp (v : JSValue) (k : string) : option JSValue :=
  match v with
  | JUndefined | JNull => None
  | JObj props => Some (lookupProp k props)
  | _ => Some JUndefined
  end.

Fixpoint join (sep : string) (l : list string) : string :=
  match l with
  | [] => ""
  | [x] => x
  | x :: rest => x +:+ sep +:+ join sep rest
  end.

Definition hasOwn (k : string) (props : list (string * JSValue)) : bool :=
  existsb (fun kv => String.eqb (fst kv) k) props.

(** The string conversion a template literal applies to an
    interpolated value; [None] is a TypeError.  A parsed object has no
    callable property of its own, so an own key [toString] shadows the
    inherited method, the inherited [valueOf] gives back the object, and
    the conversion fails.  An array is joined with commas, [null] and
    [undefined] elements giving the empty string. *)
Fixpoint toString (v : JSValue) : option string :=
  match v with
  | JUndefined => Some "undefined"
  | JNull => Some "null"
  | JBool true => Some "true"
  | JBool false => Some "false"
  | JNum n => Some (pretty n)
  | JStr s => Some s
  | JArr items =>
      match (fix each (l : list JSValue) : option (list string) :=
               match l with
               | [] => Some []
               | x :: rest =>
                   match match x with
                         | JUndefined | JNull => Some ""
                         | _ => toString x
                         end, each rest with
                   | Some s, Some ss => Some (s :: ss)
                   | _, _ => None
                   end
               end) items with
      | Some parts => Some (join "," parts)
      | None => None
      end
  | JObj props => if hasOwn "toString" props then None else Some "[object Object]"
  end.

(** [Object.keys(v)]. *)
Definition ownKeys (v : JSValue) : list string :=
  match v with
  | JObj props => map fst props
  | _ => []
  end.

(** [a === b] against a string constant. *)
Definition strictEqStr (v : JSValue) (s : string) : bool :=
  match v with
  | JStr t => String.eqb t s
  | _ => false
  end.

(** Truthiness of a string: [value || undefined]. *)
Definition orUndefined (value : string) : option string :=
  if String.eqb value "" then None else Some value.

(** *** [String.prototype.trim] and [startsWith] *)

Definition is_space (c : ascii) : bool :=
  let n := nat_of_ascii c in
  (n =? 32)%nat || ((9 <=? n)%nat && (n <=? 13)%nat).

Fixpoint trimStart (s : string) : string :=
  match s with
  | EmptyString => EmptyString
  | String c rest => if is_space c then trimStart rest else s
  end.

Fixpoint trimEnd (s : string) : string :=
  match s with
  | EmptyString => EmptyString
  | String c rest =>
      match trimEnd rest with
      | EmptyString => if is_space c then EmptyString else String c EmptyString
      | r => String c r
      end
  end.

Definition trim (s : string) : string := trimEnd (trimStart s).

Definition startsWith (s p : string) : bool := String.prefix p s.

(** The number of line feeds in a string. *)
Fixpoint newlines (s : string) : nat :=
  match s with
  | EmptyString => 0
  | String c rest => (if Ascii.eqb c "010"%char then 1 else 0) + newlines rest
  end.

(** *** [JSON.stringify] *)

Definition dquote : ascii := "034"%char.
Definition backslash : ascii := "092"%char.

Definition hexDigit (n : nat) : ascii :=
  if (n <? 10)%nat then ascii_of_nat (48 + n) else ascii_of_nat (87 + n).

Definition escapeChar (c : ascii) : string :=
  let n := nat_of_ascii c in
  if (n =? 34)%nat then String backslash (String dquote "")
  else if (n =? 92)%nat then String backslash (String backslash "")
  else if (n =? 8)%nat then String backslash "b"
  else if (n =? 9)%nat then String backslash "t"
  else if (n =? 10)%nat then String backslash "n"
  else if (n =? 12)%nat then String backslash "f"
  else if (n =? 13)%nat then String backslash "r"
  else if (n <? 32)%nat then
    String backslash ("u00" +:+ String (hexDigit (n / 16)) (String (hexDigit (n mod 16)) ""))
  else String c "".

Fixpoint escapeString (s : string) : string :=
  match s with
  | EmptyString => EmptyString
  | String c rest => escapeChar c +:+ escapeString rest
  end.

Definition quoteString (s : string) : string :=
  String dquote (escapeString s) +:+ String dquote "".

(** The members [JSON.stringify] writes for an object: a property
    whose value serializes to nothing ([undefined]) is left out. *)
Definition member (k : string) (r : option string) : option string :=
  match r with
  | Some text => Some (quoteString k +:+ ":" +:+ text)
  | None => None
  end.

Fixpoint JSON_stringify (v : JSValue) : option string :=
  match v with
  | JUndefined => None
  | JNull => Some "null"
  | JBool true => Some "true"
  | JBool false => Some "false"
  | JNum n => Some (pretty n)
  | JStr s => Some (quoteString s)
  | JArr items =>
      Some ("[" +:+ join "," (map (fun x => match JSON_stringify x with
                                            | Some r => r
                                            | None => "null"
                                            end) items) +:+ "]")
  | JObj props =>
      Some ("{" +:+ join "," (omap (fun kv => member (fst kv) (JSON_stringify (snd kv))) props)
                +:+ "}")
  end.

(** The keys that appear in the serialization of an object. *)
Definition serializedKeys (props : list (string * JSValue)) : list string :=
  omap (fun kv => match JSON_stringify (snd kv) with
                  | Some _ => Some (fst kv)
                  | None => None
                  end) props.

End JS.

(** ** A parser for the JSON fragment of the wire protocol

    [JSON.parse] is a built-in of the host; the bridge below is stated
    for an arbitrary parser.  This recursive-descent parser covers the
    fragment the protocol lines use (objects, arrays, strings with the
    short escapes and one-byte [\u00XX] escapes, integer literals,
    [true], [false], [null]) and instantiates the built-in in the
    worked examples. *)

Module Json.
Import JS.

Definition is_json_ws (c : ascii) : bool :=
  let n := nat_of_ascii c in
  (n =? 32)%nat || (n =? 9)%nat || (n =? 10)%nat || (n =? 13)%nat.

Fixpoint skip_ws (s : string) : string :=
  match s with
  | EmptyString => EmptyString
  | String c rest => if is_json_ws c then skip_ws rest else s
  end.

Definition digit_of (c : ascii) : option Z :=
  let n := nat_of_ascii c in
  if (48 <=? n)%nat && (n <=? 57)%nat then Some (Z.of_nat (n - 48)) else None.

Definition hex_of (c : ascii) : option nat :=
  let n := nat_of_ascii c in
  if (48 <=? n)%nat && (n <=? 57)%nat then Some (n - 48)%nat
  else if (97 <=? n)%nat && (n <=? 102)%nat then Some (n - 87)%nat
  else if (65 <=? n)%nat && (n <=? 70)%nat then Some (n - 55)%nat
  else None.

(** The digits after the first one of an integer literal. *)
Fixpoint parse_digits (acc : Z) (s : string) : Z * string :=
  match s with
  | EmptyString => (acc, EmptyString)
  | String c rest =>
      match digit_of c with
      | Some d => parse_digits (10 * acc + d) rest
      | None => (acc, s)
      end
  end.

(** After the integer part, a fraction or an exponent leaves the
    fragment. *)
Definition ends_integer (s : string) : bool :=
  match s with
  | String c _ =>
      negb (Ascii.eqb c "."%char || Ascii.eqb c "e"%char || Ascii.eqb c "E"%char)
  | EmptyString => true
  end.

Definition parse_natural (s : string) : option (Z * string) :=
  match s with
  | String c rest =>
      match digit_of c with
      | Some 0%Z => if ends_integer rest then Some (0%Z, rest) else None
      | Some d =>
          let '(n, rest') := parse_digits d rest in
          if ends_integer rest' then Some (n, rest') else None
      | None => None
      end
  | EmptyString => None
  end.

Definition parse_number (s : string) : option (JSValue * string) :=
  match s with
  | String c rest =>
      if Ascii.eqb c "-"%char then
        match parse_natural rest with
        | Some (n, rest') => Some (JNum (- n), rest')
        | None => None
        end
      else
        match parse_natural s with
        | Some (n, rest') => Some (JNum n, rest')
        | None => None
        end
  | EmptyString => None
  end.

Definition unescape (c : ascii) : option ascii :=
  let n := nat_of_ascii c in
  if (n =? 34)%nat then Some dquote
  else if (n =? 92)%nat then Some backslash
  else if (n =? 47)%nat then Some "/"%char
  else if (n =? 98)%nat then Some "008"%char
  else if (n =? 102)%nat then Some "012"%char
  else if (n =? 110)%nat then Some "010"%char
  else if (n =? 114)%nat then Some "013"%char
  else if (n =? 116)%nat then Some "009"%char
  else None.

(** The characters of a string literal after its opening quote, up
    to the closing one. *)
Fixpoint parse_string_body (s : string) : option (string * string) :=
  match s with
  | EmptyString => None
  | String c rest =>
      if Ascii.eqb c dquote then Some (EmptyString, rest)
      else if Ascii.eqb c backslash then
        match rest with
        | String e rest1 =>
            if Ascii.eqb e "u"%char then
              match rest1 with
              | String h1 (String h2 (String h3 (String h4 rest2))) =>
                  match hex_of h1, hex_of h2, hex_of h3, hex_of h4 with
                  | Some 0%nat, Some 0%nat, Some a, Some b =>
                      match parse_string_body rest2 with
                      | Some (body, rest3) =>
                          Some (String (ascii_of_nat (16 * a + b)) body, rest3)
                      | None => None
                      end
                  | _, _, _, _ => None
                  end
              | _ => None
              end
            else
              match unescape e with
              | Some c' =>
                  match parse_string_body rest1 with
                  | Some (body, rest2) => Some (String c' body, rest2)
                  | None => None
                  end
              | None => None
              end
        | EmptyString => None
        end
      else if (nat_of_ascii c <? 32)%nat then None
      else
        match parse_string_body rest with
        | Some (body, rest1) => Some (String c body, rest1)
        | None => None
        end
  end.

Definition parse_literal (lit : string) (v : JSValue) (s : string)
  : option (JSValue * string) :=
  if String.prefix lit s
  then Some (v, String.substring (String.length lit)
                                 (String.length s - String.length lit) s)
  else None.

Fixpoint parse_value (fuel : nat) (s : string) : option (JSValue * string) :=
  match fuel with
  | O => None
  | S fuel' =>
      match skip_ws s with
      | EmptyString => None
      | String c rest as s0 =>
          if Ascii.eqb c "{"%char then
            match skip_ws rest with
            | String c1 rest1 as s1 =>
                if Ascii.eqb c1 "}"%char then Some (JObj [], rest1)
                else parse_members fuel' s1 []
            | EmptyString => None
            end
          else if Ascii.eqb c "["%char then
            match skip_ws rest with
            | String c1 rest1 as s1 =>
                if Ascii.eqb c1 "]"%char then Some (JArr [], rest1)
                else parse_elements fuel' s1 []
            | EmptyString => None
            end
          else if Ascii.eqb c dquote then
            match parse_string_body rest with
            | Some (str, rest1) => Some (JStr str, rest1)
            | None => None
            end
          else if Ascii.eqb c "t"%char then parse_literal "true" (JBool true) s0
          else if Ascii.eqb c "f"%char then parse_literal "false" (JBool false) s0
          else if Ascii.eqb c "n"%char then parse_literal "null" JNull s0
          else parse_number s0
      end
  end
with parse_members (fuel : nat) (s : string) (acc : list (string * JSValue))
  : option (JSValue * string) :=
  match fuel with
  | O => None
  | S fuel' =>
      match skip_ws s with
      | String c rest =>
          if Ascii.eqb c dquote then
            match parse_string_body rest with
            | Some (k, rest1) =>
                match skip_ws rest1 with
                | String c2 rest2 =>
                    if Ascii.eqb c2 ":"%char then
                      match parse_value fuel' rest2 with
                      | Some (v, rest3) =>
                          match skip_ws rest3 with
                          | String c4 rest4 =>
                              if Ascii.eqb c4 ","%char
                              then parse_members fuel' rest4 (setProp k v acc)
                              else if Ascii.eqb c4 "}"%char
                              then Some (JObj (setProp k v acc), rest4)
                              else None
                          | EmptyString => None
                          end
                      | None => None
                      end
                    else None
                | EmptyString => None
                end
            | None => None
            end
          else None
      | EmptyString => None
      end
  end
with parse_elements (fuel : nat) (s : string) (acc : list JSValue)
  : option (JSValue * string) :=
  match fuel with
  | O => None
  | S fuel' =>
      match parse_value fuel' s with
      | Some (v, rest) =>
          match skip_ws rest with
          | String c rest1 =>
              if Ascii.eqb c ","%char then parse_elements fuel' rest1 (acc ++ [v])
              else if Ascii.eqb c "]"%char then Some (JArr (acc ++ [v]), rest1)
              else None
          | EmptyString => None
          end
      | None => None
      end
  end.

(** One value, surrounded by white space, and nothing else. *)
Definition JSON_parse (s : string) : option JSValue :=
  match parse_value (2 * String.length s + 2) s with
  | Some (v, rest) =>
      match skip_ws rest with
      | EmptyString => Some v
      | String _ _ => None
      end
  | None => None
  end.

(** Building protocol lines in the examples. *)
Definition qt (s : string) : string := String dquote s +:+ String dquote "".

Definition field (k v : string) : string := qt k +:+ ":" +:+ v.

Definition object (fields : list string) : string := "{" +:+ join "," fields +:+ "}".

End Json.

(** ** [utils/docker.ts]: the Docker bootstrap

    Every [await execa(file, args)] asks the environment for the
    outcome of that command; the environment is a script giving the
    outcome of the [n]-th invocation.  The world records how many
    commands ran and the trace of what the program did. *)

Module Docker.
Import JS.

Inductive Platform : Type := Darwin | Linux | OtherPlatform.

Inductive ExecResult : Type :=
| ExecOk (stdout : string)
| ExecFail (message : string).

Inductive Action : Type :=
| AExec (file : string) (args : list string)
| ASleep (ms : nat)
| AProgress (message : string).

Record Env : Type := mkEnv {
  platform : Platform;
  execa_result : nat -> string -> list string -> ExecResult
}.

Record World : Type := mkWorld {
  calls : nat;
  trace : list Action
}.

Definition init_world : World := mkWorld 0 [].

Record DockerStatus : Type := mkStatus {
  installed : bool;
  running : bool;
  imageBuilt : bool
}.

Inductive Result (A : Type) : Type :=
| Ok (a : A)
| Throw (message : string).
Arguments Ok {A} a.
Arguments Throw {A} message.

(** Computations that read the environment, thread the world and may
    throw an [Error] with a message. *)
Definition M (A : Type) : Type := Env -> World -> World * Result A.

Definition ret {A} (a : A) : M A := fun _ w => (w, Ok a).

Definition bind {A B} (m : M A) (k : A -> M B) : M B :=
  fun env w =>
    match m env w with
    | (w', Ok a) => k a env w'
    | (w', Throw msg) => (w', Throw msg)
    end.

Definition throw {A} (msg : string) : M A := fun _ w => (w, Throw msg).

Definition tryCatch {A} (m : M A) (handler : string -> M A) : M A :=
  fun env w =>
    match m env w with
    | (w', Ok a) => (w', Ok a)
    | (w', Throw msg) => handler msg env w'
    end.

Notation "'let*' x ':=' c 'in' k" := (bind c (fun x => k))
  (at level 10, x name, c at level 100, k at level 200).
Notation "c ';;;' k" := (bind c (fun _ => k))
  (at level 100, k at level 200, right associativity).

Definition emit (a : Action) (w : World) : World :=
  mkWorld (calls w) (trace w ++ [a]).

(** [await execa(file, args)]: resolves with the standard output or
    rejects with the error of the command. *)
Definition execa (file : string) (args : list string) : M string :=
  fun env w =>
    let w' := mkWorld (S (calls w)) (trace w ++ [AExec file args]) in
    match execa_result env (calls w) file args with
    | ExecOk out => (w', Ok out)
    | ExecFail msg => (w', Throw msg)
    end.

(** [await new Promise(resolve => setTimeout(resolve, ms))]. *)
Definition sleep (ms : nat) : M unit := fun _ w => (emit (ASleep ms) w, Ok tt).

(** [onProgress?.(message)] with the callback [DockerCheck] passes. *)
Definition onProgress (message : string) : M unit :=
  fun _ w => (emit (AProgress message) w, Ok tt).

Definition getPlatform : M Platform := fun env w => (w, Ok (platform env)).

Definition checkDockerInstalled : M bool :=
  tryCatch (execa "docker" ["--version"] ;;; ret true) (fun _ => ret false).

Definition checkDockerRunning : M bool :=
  tryCatch (execa "docker" ["ps"] ;;; ret true) (fun _ => ret false).

Definition sandbox_image : string := "inferno-sandbox:latest".

Definition checkImageBuilt (imageName : string) : M bool :=
  tryCatch
    (let* stdout := execa "docker" ["images"; "-q"; imageName] in
     ret (0 <? String.length (trim stdout))%nat)
    (fun _ => ret false).

Definition getDockerStatus : M DockerStatus :=
  let* installed := checkDockerInstalled in
  let* running := (if installed then checkDockerRunning else ret false) in
  let* imageBuilt := (if running then checkImageBuilt sandbox_image else ret false) in
  ret (mkStatus installed running imageBuilt).

Definition install_hint : string :=
  "Please install Docker Desktop from https://www.docker.com/products/docker-desktop".

Definition installDockerMac : M unit :=
  let* os := getPlatform in
  match os with
  | Darwin =>
      tryCatch
        (execa "brew" ["--version"] ;;;
         execa "brew" ["install"; "--cask"; "docker"] ;;;
         ret tt)
        (fun _ => throw install_hint)
  | Linux =>
      let* script := execa "curl" ["-fsSL"; "https://get.docker.com"] in
      execa "sh" ["-c"; script] ;;;
      ret tt
  | OtherPlatform => throw install_hint
  end.

Definition startDockerDesktop : M unit :=
  let* os := getPlatform in
  match os with
  | Darwin => execa "open" ["-a"; "Docker"] ;;; ret tt
  | _ => throw "Please start Docker manually"
  end.

Definition build_args : list string :=
  ["build"; "-t"; "inferno-sandbox:latest"; "/Users/ademkok/Inferno-AI/Inferno"].

(** The caught value is an [Error]; interpolated in the template it
    reads [Error: <message>]. *)
Definition buildSandboxImage : M unit :=
  tryCatch
    (onProgress "Building sandbox image..." ;;;
     execa "docker" build_args ;;;
     onProgress "Sandbox image built successfully")
    (fun error => throw ("Failed to build sandbox image: " +:+ "Error: " +:+ error)).

Definition set_installed (s : DockerStatus) : DockerStatus :=
  mkStatus true (running s) (imageBuilt s).
Definition set_running (s : DockerStatus) : DockerStatus :=
  mkStatus (installed s) true (imageBuilt s).
Definition set_imageBuilt (s : DockerStatus) : DockerStatus :=
  mkStatus (installed s) (running s) true.

(** [for (let i = 0; i < 30; i++) { sleep; if (running) { ...; break } }],
    by the number of iterations left. *)
Fixpoint pollRunning (n : nat) (status : DockerStatus) : M DockerStatus :=
  match n with
  | O => ret status
  | S n' =>
      sleep 1000 ;;;
      let* up := checkDockerRunning in
      if up then ret (set_running status) else pollRunning n' status
  end.

Definition start_timeout : string := "Docker failed to start within 30 seconds".

Definition installStage (status : DockerStatus) : M DockerStatus :=
  if negb (installed status) then
    onProgress "Installing Docker..." ;;;
    installDockerMac ;;;
    onProgress "Docker installed" ;;;
    ret (set_installed status)
  else ret status.

Definition startStage (status : DockerStatus) : M DockerStatus :=
  if negb (running status) then
    onProgress "Starting Docker..." ;;;
    startDockerDesktop ;;;
    let* status := pollRunning 30 status in
    if negb (running status) then throw start_timeout
    else onProgress "Docker is running" ;;; ret status
  else ret status.

Definition buildStage (status : DockerStatus) : M DockerStatus :=
  if negb (imageBuilt status) then
    buildSandboxImage ;;;
    ret (set_imageBuilt status)
  else ret status.

Definition ensureDocker : M DockerStatus :=
  let* status := getDockerStatus in
  let* status := installStage status in
  let* status := startStage status in
  buildStage status.

(** What the trace shows. *)
Definition is_build (a : Action) : bool :=
  match a with
  | AExec file (arg :: _) => String.eqb file "docker" && String.eqb arg "build"
  | _ => false
  end.

Definition is_probe (a : Action) : bool :=
  match a with
  | AExec file args =>
      String.eqb file "docker" &&
      (bool_decide (args = ["--version"]) || bool_decide (args = ["ps"])
       || match args with
          | [a1; a2; _] => String.eqb a1 "images" && String.eqb a2 "-q"
          | _ => false
          end)
  | _ => false
  end.

Definition poll_round : list Action := [ASleep 1000; AExec "docker" ["ps"]].

Fixpoint poll_trace (n : nat) : list Action :=
  match n with
  | O => []
  | S n' => poll_round ++ poll_trace n'
  end.

Definition probe_trace : list Action :=
  [AExec "docker" ["--version"]; AExec "docker" ["ps"];
   AExec "docker" ["images"; "-q"; sandbox_image]].

Definition is_fail (r : ExecResult) : bool :=
  match r with
  | ExecFail _ => true
  | ExecOk _ => false
  end.

Definition ready : DockerStatus := mkStatus true true true.

(** What the image query tells: an identifier that is not blank. *)
Definition image_listed (r : ExecResult) : bool :=
  match r with
  | ExecOk out => negb (String.eqb (trim out) "")
  | ExecFail _ => false
  end.

Definition is_sleep (a : Action) : bool :=
  match a with
  | ASleep _ => true
  | _ => false
  end.

Definition sleeps (tr : list Action) : nat := length (List.filter is_sleep tr).

(** The milliseconds slept in a trace. *)
Definition slept (tr : list Action) : nat :=
  fold_right (fun a acc => match a with ASleep ms => ms + acc | _ => acc end) 0 tr.

End Docker.


(** ** [utils/bridge.ts]: the Python bridge

    [startScan] runs up to its first suspension at once (spawn, write
    the configuration) and is then resumed by the event loop: the
    import of [readline] resolves, a line is read from the standard
    output, the lines end, the awaited process promise settles.  [stop] is called by the
    owner between two such resumptions.  A [Tick] is one of these, and
    [step] is what the bridge does on it. *)

Module Bridge.
Import JS.

Record ScanConfig : Type := mkConfig {
  target : string;
  objective : option string;
  provider : option string;
  model : option string
}.

Definition optional (o : option string) : JSValue :=
  match o with
  | Some s => JStr s
  | None => JUndefined
  end.

(** The object behind a [ScanConfig]; an unset key is a key holding
    [undefined], which [JSON.stringify] treats as an absent one. *)
Definition config_object (c : ScanConfig) : list (string * JSValue) :=
  [("target", JStr (target c)); ("objective", optional (objective c));
   ("provider", optional (provider c)); ("model", optional (model c))].

Definition newline : string := String "010"%char "".

(** [JSON.stringify(config) + '\n']. *)
Definition config_line (c : ScanConfig) : string :=
  match JSON_stringify (JObj (config_object c)) with
  | Some text => text +:+ newline
  | None => "undefined" +:+ newline
  end.

(** The value caught by the outer [catch]: an [Error]. *)
Record JSError : Type := mkError {
  message : string;
  stack : option string
}.

Inductive Settled : Type :=
| Fulfilled
| Rejected (error : JSError).

Inductive ChildProcess : Type := python3.

(** What the bridge does to the outside. *)
Inductive Effect : Type :=
| Spawn
| StdinWrite (data : string)
| OnEvent (event : JSValue)
| Kill.

(** Where [startScan] stands. *)
Inductive Phase : Type :=
| Idle        (* not called *)
| Importing   (* at [await import('readline')] *)
| Reading     (* inside [for await (const line of rl)] *)
| Awaiting    (* at [await this.process], on a process promise *)
| Returned.   (* the promise of [startScan] is settled *)

Record PythonBridge : Type := mkBridge {
  process : option ChildProcess;
  phase : Phase;
  effects : list Effect
}.

(** [new PythonBridge()]. *)
Definition fresh : PythonBridge := mkBridge None Idle [].

Inductive Tick : Type :=
| Imported                    (* [await import('readline')] resumes *)
| Line (line : string)        (* the line iterator yields a line *)
| Close                       (* the line iterator ends *)
| Settle (outcome : Settled)  (* [await this.process] resumes *)
| StopCall.                   (* the owner calls [stop()] *)

Definition perform (e : Effect) (b : PythonBridge) : PythonBridge :=
  mkBridge (process b) (phase b) (effects b ++ [e]).

Definition set_phase (p : Phase) (b : PythonBridge) : PythonBridge :=
  mkBridge (process b) p (effects b).

(** The event of the [catch] block:
    [{type: 'error', message: error.message || 'Scan failed', stack: error.stack}]. *)
Definition errorEvent (error : JSError) : JSValue :=
  JObj [("type", JStr "error");
        ("message", JStr (if String.eqb (message error) "" then "Scan failed"
                          else message error));
        ("stack", optional (stack error))].

(** [stop()]. *)
Definition stop (b : PythonBridge) : PythonBridge :=
  match process b with
  | Some _ => mkBridge None (phase b) (effects b ++ [Kill])
  | None => b
  end.

(** The synchronous prefix of [startScan(config, onEvent)]: the
    process is spawned with piped standard streams, the configuration
    line is written, and the function suspends at the import of
    [readline]. *)
Definition startScan (config : ScanConfig) (b : PythonBridge) : PythonBridge :=
  mkBridge (Some python3) Importing
           (effects b ++ [Spawn; StdinWrite (config_line config)]).

Section WithParser.

Variable JSON_parse : string -> option JSValue.

(** The TypeError the engine raises when [this.process.stdout] is
    evaluated on a handle that is [null]; its message and stack are the
    engine's. *)
Variable nullStdout : JSError.

(** The body of the loop; an exception of [JSON.parse] or of
    [onEvent] is swallowed by the inner [catch]. *)
Definition onLine (line : string) (b : PythonBridge) : PythonBridge :=
  if String.eqb (trim line) "" then b
  else
    match JSON_parse line with
    | Some event => perform (OnEvent event) b
    | None => b
    end.

Definition step (b : PythonBridge) (t : Tick) : PythonBridge :=
  match t with
  | StopCall => stop b
  | Imported =>
      (* [readline.createInterface({input: this.process.stdout, ...})] *)
      match phase b with
      | Importing =>
          match process b with
          | Some _ => set_phase Reading b
          | None => set_phase Returned (perform (OnEvent (errorEvent nullStdout)) b)
          end
      | _ => b
      end
  | Line line =>
      match phase b with
      | Reading => onLine line b
      | _ => b
      end
  | Close =>
      match phase b with
      | Reading =>
          match process b with
          | Some _ => set_phase Awaiting b
          | None => set_phase Returned b     (* [await null] *)
          end
      | _ => b
      end
  | Settle outcome =>
      match phase b with
      | Awaiting =>
          match outcome with
          | Fulfilled => set_phase Returned b
          | Rejected error => set_phase Returned (perform (OnEvent (errorEvent error)) b)
          end
      | _ => b
      end
  end.

(** What one line contributes to the events: nothing when it is blank
    or does not parse. *)
Definition lineEvent (line : string) : option JSValue :=
  if String.eqb (trim line) "" then None else JSON_parse line.

Definition lineEvents (lines : list string) : list JSValue :=
  omap lineEvent lines.

Definition run (b : PythonBridge) (ticks : list Tick) : PythonBridge :=
  fold_left step ticks b.

(** A run nobody stops: the import, the lines, the end of the output,
    the settlement of the process. *)
Definition unstopped (lines : list string) (outcome : Settled) : list Tick :=
  Imported :: map Line lines ++ [Close; Settle outcome].

End WithParser.

(** The events handed to [onEvent], in order. *)
Definition delivered (effs : list Effect) : list JSValue :=
  omap (fun e => match e with OnEvent event => Some event | _ => None end) effs.

Definition typeIs (name : string) (event : JSValue) : bool :=
  match getProp event "type" with
  | Some ty => strictEqStr ty name
  | None => false
  end.

(** A terminal event: [complete] or [error]. *)
Definition isTerminal (event : JSValue) : bool :=
  typeIs "complete" event || typeIs "error" event.

Definition terminals (effs : list Effect) : list JSValue :=
  List.filter isTerminal (delivered effs).

(** The lines read before the output ends. *)
Fixpoint readLines (ticks : list Tick) : list string :=
  match ticks with
  | [] => []
  | Line line :: rest => line :: readLines rest
  | Close :: _ => []
  | _ :: rest => readLines rest
  end.

(** The ticks after the import of [readline] has resolved. *)
Fixpoint afterImport (ticks : list Tick) : option (list Tick) :=
  match ticks with
  | [] => None
  | Imported :: rest => Some rest
  | _ :: rest => afterImport rest
  end.

(** [stop] is called before the import has resolved. *)
Fixpoint stoppedBeforeImport (ticks : list Tick) : bool :=
  match ticks with
  | [] => false
  | StopCall :: _ => true
  | Imported :: _ => false
  | _ :: rest => stoppedBeforeImport rest
  end.

(** The ticks after the end of the output. *)
Fixpoint afterClose (ticks : list Tick) : option (list Tick) :=
  match ticks with
  | [] => None
  | Close :: rest => Some rest
  | _ :: rest => afterClose rest
  end.

(** [stop] is called before the output ends. *)
Fixpoint stoppedBeforeClose (ticks : list Tick) : bool :=
  match ticks with
  | [] => false
  | StopCall :: _ => true
  | Close :: _ => false
  | _ :: rest => stoppedBeforeClose rest
  end.

Fixpoint firstSettle (ticks : list Tick) : option Settled :=
  match ticks with
  | [] => None
  | Settle outcome :: _ => Some outcome
  | _ :: rest => firstSettle rest
  end.

Definition isStopCall (t : Tick) : bool :=
  match t with
  | StopCall => true
  | _ => false
  end.

Definition synthesized (outcome : Settled) : list JSValue :=
  match outcome with
  | Fulfilled => []
  | Rejected error => [errorEvent error]
  end.

(** The keys of a configuration that are set, with their values. *)
Definition optField (k : string) (o : option string) : list (string * string) :=
  match o with
  | Some v => [(k, v)]
  | None => []
  end.

Definition setFields (c : ScanConfig) : list (string * string) :=
  ("target", target c) :: optField "objective" (objective c)
  ++ optField "provider" (provider c) ++ optField "model" (model c).

(** Exactly one terminal event is handed to the consumer. *)
Definition oneTerminal (effs : list Effect) : Prop := length (terminals effs) = 1.

(** The members of the serialized configuration that an optional key
    contributes. *)
Definition present (k : string) (o : option string) : list string :=
  match o with
  | Some v => [quoteString k +:+ ":" +:+ quoteString v]
  | None => []
  end.

Definition keyIf (k : string) (o : option string) : list string :=
  match o with
  | Some _ => [k]
  | None => []
  end.

(** The effects after the first [Kill]. *)
Fixpoint afterKill (effs : list Effect) : list Effect :=
  match effs with
  | [] => []
  | Kill :: rest => rest
  | _ :: rest => afterKill rest
  end.

(** No [onEvent] call follows the kill. *)
Definition quietAfterStop (effs : list Effect) : bool :=
  forallb (fun e => match e with OnEvent _ => false | _ => true end) (afterKill effs).

(** The error event a schedule leads to: the output must end before
    any [stop], and the first settlement after it must be a rejection. *)
Definition scheduledError (ticks : list Tick) : list JSValue :=
  match afterClose ticks with
  | Some rest =>
      if stoppedBeforeClose ticks then []
      else match firstSettle rest with
           | Some outcome => synthesized outcome
           | None => []
           end
  | None => []
  end.

(** The events a schedule leads to.  Nothing before the import has
    resolved; if [stop] came first, the TypeError of the [null] handle
    and nothing else; otherwise the events of the lines read up to the
    end of the output, then the error of [scheduledError]. *)
Definition scheduledEvents (JSON_parse : string -> option JSValue) (nullStdout : JSError)
           (ticks : list Tick) : list JSValue :=
  match afterImport ticks with
  | None => []
  | Some rest =>
      if stoppedBeforeImport ticks then [errorEvent nullStdout]
      else lineEvents JSON_parse (readLines rest) ++ scheduledError rest
  end.

Definition kills (effs : list Effect) : nat :=
  length (List.filter (fun e => match e with Kill => true | _ => false end) effs).

End Bridge.

(** ** [components/ScanDisplay.tsx]: the event stream of a session *)

Module ScanDisplay.
Import JS Bridge.

Record State : Type := mkState {
  events : list JSValue;        (* [useState<ScanEvent[]>([])] *)
  isComplete : bool;            (* [useState(false)] *)
  logsRef : gset string;        (* [useRef(new Set())] *)
  completeTimers : nat          (* pending [setTimeout(() => onComplete(), 3000)] *)
}.

Definition initial : State := mkState [] false ∅ 0.

(** The template [`${event.type}-${event.timestamp}-${(event as any).message}`];
    [None] when a property is read on [null] or a value cannot be
    converted to a string. *)
Definition dedupKey (event : JSValue) : option string :=
  match getProp event "type", getProp event "timestamp", getProp event "message" with
  | Some ty, Some ts, Some msg =>
      match toString ty, toString ts, toString msg with
      | Some a, Some b, Some c => Some (a +:+ "-" +:+ b +:+ "-" +:+ c)
      | _, _, _ => None
      end
  | _, _, _ => None
  end.

(** The handler runs to its end on [event]. *)
Definition accepted (event : JSValue) : bool :=
  match dedupKey event with
  | Some _ => true
  | None => false
  end.

Definition record (key : string) (event : JSValue) (st : State) : State :=
  if decide (key ∈ logsRef st) then st
  else mkState (events st ++ [event]) (isComplete st) ({[key]} ∪ logsRef st)
               (completeTimers st).

Definition finish (event : JSValue) (st : State) : State :=
  if typeIs "complete" event || typeIs "error" event then
    mkState (events st) true (logsRef st)
            (if typeIs "complete" event then S (completeTimers st) else completeTimers st)
  else st.

(** The callback given to [startScan]; [None] is a TypeError, thrown
    while the key is computed, before any state is touched. *)
Definition onEvent (event : JSValue) (st : State) : option State :=
  match dedupKey event with
  | Some key => Some (finish event (record key event st))
  | None => None
  end.

(** A call of the callback from the bridge, whose inner [catch]
    swallows what it throws. *)
Definition deliver (st : State) (event : JSValue) : State :=
  match onEvent event st with
  | Some st' => st'
  | None => st
  end.

Definition consume (st : State) (effs : list Effect) : State :=
  fold_left deliver (delivered effs) st.

Definition isLogEvent (e : JSValue) : bool :=
  typeIs "progress" e || typeIs "vulnerability" e || typeIs "error" e
  || typeIs "agent_action" e.

Definition logEvents (st : State) : list JSValue :=
  List.filter isLogEvent (events st).

(** [xs.slice(-n)]. *)
Definition sliceLast {A} (n : nat) (xs : list A) : list A :=
  skipn (length xs - n) xs.

Definition displayEvents (st : State) : list JSValue :=
  sliceLast 15 (logEvents st).

(** The keys of the recorded events. *)
Definition keysOf (evs : list JSValue) : list string := omap dedupKey evs.

Definition completes (evs : list JSValue) : nat :=
  length (List.filter (fun e => accepted e && typeIs "complete" e) evs).

(** *** [LogEntry] *)

Record Entry : Type := mkEntry {
  level : string;
  color : string;
  text : string;
  detail : option string
}.

Definition getSeverityColor (severity : string) : string :=
  if String.eqb severity "CRITICAL" then "redBright"
  else if String.eqb severity "HIGH" then "red"
  else if String.eqb severity "MEDIUM" then "yellow"
  else if String.eqb severity "LOW" then "blue"
  else "white".

Definition str (event : JSValue) (k : string) : string :=
  match getProp event k with
  | Some (JStr s) => s
  | _ => ""
  end.

(** The label of a [progress] event. *)
Definition progressLevel (step message : string) : string * string :=
  if String.eqb step "reasoning" then ("THINK   ", "magenta")
  else if startsWith message "Executing:" then ("TOOL    ", "yellow")
  else if startsWith message "Running:" then ("CMD     ", "cyan")
  else if startsWith message "Agent says:" then ("AGENT   ", "green")
  else ("INFO    ", "blue").

(** What [LogEntry] renders for a well-typed event; [None] is the
    [return null] of the last line. *)
Definition LogEntry (event : JSValue) : option Entry :=
  if typeIs "progress" event then
    let '(lvl, col) := progressLevel (str event "step") (str event "message") in
    Some (mkEntry lvl col (str event "message")
            (if String.eqb (str event "step") "reasoning"
                && negb (String.eqb (str event "full_reasoning") "")
             then Some (str event "full_reasoning") else None))
  else if typeIs "vulnerability" event then
    Some (mkEntry "VULN    " (getSeverityColor (str event "severity"))
            (str event "severity" +:+ ": " +:+ str event "title")
            (Some (str event "endpoint")))
  else if typeIs "error" event then
    Some (mkEntry "ERROR   " "red" (str event "message") None)
  else None.

(** *** A mounted display: the bridge of the effect and the state *)

Record Session : Type := mkSession {
  bridge : PythonBridge;
  display : State
}.

(** The effect of [useEffect]: a new bridge, started on the
    configuration. *)
Definition mount (config : ScanConfig) : Session :=
  mkSession (startScan config fresh) initial.

Section WithParser.

Variable JSON_parse : string -> option JSValue.
Variable nullStdout : JSError.

(** One tick of the event loop: the bridge moves, and the callback
    runs on what it delivers. *)
Definition tick (s : Session) (t : Tick) : Session :=
  let b' := step JSON_parse nullStdout (bridge s) t in
  mkSession b' (consume (display s)
                        (skipn (length (effects (bridge s))) (effects b'))).

Definition play (s : Session) (ticks : list Tick) : Session :=
  fold_left tick ticks s.

End WithParser.

(** The cleanup of the effect: [bridge.stop()]. *)
Definition unmount (s : Session) : Session :=
  mkSession (stop (bridge s)) (display s).

End ScanDisplay.

(** ** [components/TargetInput.tsx]: collecting the configuration *)

Module TargetInput.
Import JS Bridge.

Inductive Step : Type := StepTarget | StepObjective.

Record State : Type := mkState {
  step : Step;
  target : string;
  objective : string
}.

Definition initial : State := mkState StepTarget "" "".

Definition handleTargetSubmit (value : string) (st : State) : State :=
  mkState StepObjective value (objective st).

(** Returns the new state and the configuration given to [onSubmit]. *)
Definition handleObjectiveSubmit (value : string) (st : State) : State * ScanConfig :=
  (mkState (step st) (target st) value,
   mkConfig (target st) (orUndefined value) None None).

(** What the user does to the field on screen. *)
Inductive Input : Type :=
| Change (value : string)
| Submit (value : string).

(** The field on screen is wired by [step]: the target field to
    [setTarget] and [handleTargetSubmit], the objective field to
    [setObjective] and [handleObjectiveSubmit]. *)
Definition handle (i : Input) (st : State) : State * option ScanConfig :=
  match step st, i with
  | StepTarget, Change v => (mkState (step st) v (objective st), None)
  | StepTarget, Submit v => (handleTargetSubmit v st, None)
  | StepObjective, Change v => (mkState (step st) (target st) v, None)
  | StepObjective, Submit v =>
      let '(st', config) := handleObjectiveSubmit v st in (st', Some config)
  end.

(** A sequence of inputs: the final state and the configurations
    given to [onSubmit], in order. *)
Fixpoint feed (inputs : list Input) (st : State) : State * list ScanConfig :=
  match inputs with
  | [] => (st, [])
  | i :: rest =>
      let '(st1, out) := handle i st in
      let '(st2, outs) := feed rest st1 in
      (st2, match out with Some c => c :: outs | None => outs end)
  end.

(** The values submitted, in order. *)
Fixpoint submitted (inputs : list Input) : list string :=
  match inputs with
  | [] => []
  | Submit v :: rest => v :: submitted rest
  | Change _ :: rest => submitted rest
  end.

(** The configuration built for the target [t] from a submitted
    objective. *)
Definition configFor (t : string) (objectiveValue : string) : ScanConfig :=
  mkConfig t (orUndefined objectiveValue) None None.

End TargetInput.

(** ** [components/DockerCheck.tsx]: reporting the bootstrap *)

Module DockerCheck.
Import JS Docker.

Record State : Type := mkState {
  status : string;
  dockerStatus : option DockerStatus
}.

Definition initial : State := mkState "" None.





End DockerCheck.

(** ** [index.tsx]: the screens *)

Module App.
Import JS Bridge.

Inductive Screen : Type :=
| welcome | docker_check | input | scanning | complete.

Record State : Type := mkState {
  screen : Screen;
  scanConfig : option ScanConfig;
  error : option string
}.

Definition initial : State := mkState docker_check None None.

(** The callbacks the screens are given. *)
Definition onReady (st : State) : State :=
  mkState input (scanConfig st) (error st).

Definition onError (msg : string) (st : State) : State :=
  mkState (screen st) (scanConfig st) (Some msg).

Definition onSubmit (config : ScanConfig) (st : State) : State :=
  mkState scanning (Some config) (error st).

Definition onComplete (st : State) : State :=
  mkState complete (scanConfig st) (error st).

Inductive View : Type :=
| VError (msg : string)
| VWelcome
| VDockerCheck
| VTargetInput
| VScanDisplay (config : ScanConfig)
| VNothing          (* [scanConfig && ...] with no configuration *)
| VComplete.

(** What [App] renders; [if (error)] holds for a non-empty string. *)
Definition render (st : State) : View :=
  match error st with
  | Some (String c rest) => VError (String c rest)
  | _ =>
      match screen st with
      | welcome => VWelcome
      | docker_check => VDockerCheck
      | input => VTargetInput
      | scanning =>
          match scanConfig st with
          | Some config => VScanDisplay config
          | None => VNothing
          end
      | complete => VComplete
      end
  end.

Inductive Event : Type :=
| EvReady
| EvError (msg : string)
| EvSubmit (config : ScanConfig)
| EvComplete.

Definition handle (st : State) (e : Event) : State :=
  match e with
  | EvReady => onReady st
  | EvError msg => onError msg st
  | EvSubmit config => onSubmit config st
  | EvComplete => onComplete st
  end.

Definition clearsError (e : Event) : bool :=
  match e with
  | EvError msg => String.eqb msg ""
  | _ => false
  end.

(** From the input screen: the target, then the objective, typed and
    submitted; then the display that [App] mounts. *)
Definition submitBoth (targetValue objectiveValue : string) (st : State) : State :=
  let t1 := TargetInput.handleTargetSubmit targetValue TargetInput.initial in
  let '(_, config) := TargetInput.handleObjectiveSubmit objectiveValue t1 in
  onSubmit config st.

(** The bridge run that rendering [st] starts, if any. *)
Definition started (st : State) : option PythonBridge :=
  match render st with
  | VScanDisplay config => Some (ScanDisplay.bridge (ScanDisplay.mount config))
  | _ => None
  end.

End App.

(** ** [types.ts]: the events a producer that follows the protocol sends

    The interfaces of [types.ts], as the objects [JSON.parse] gives for
    a line that follows them; an optional key that is not set is absent. *)

Module Types.
Import JS.

Definition optKey (k : string) (o : option string) : list (string * JSValue) :=
  match o with
  | Some v => [(k, JStr v)]
  | None => []
  end.

Definition ProgressEvent (step message : string) (full_reasoning : option string)
           (timestamp : Z) : JSValue :=
  JObj ([("type", JStr "progress"); ("step", JStr step); ("message", JStr message);
         ("timestamp", JNum timestamp)] ++ optKey "full_reasoning" full_reasoning).

Definition AgentActionEvent (agent action : string) (command result : option string)
           (timestamp : Z) : JSValue :=
  JObj ([("type", JStr "agent_action"); ("agent", JStr agent); ("action", JStr action)]
        ++ optKey "command" command ++ optKey "result" result
        ++ [("timestamp", JNum timestamp)]).

Definition VulnerabilityEvent (severity title endpoint evidence : string)
           (timestamp : Z) : JSValue :=
  JObj [("type", JStr "vulnerability"); ("severity", JStr severity);
        ("title", JStr title); ("endpoint", JStr endpoint);
        ("evidence", JStr evidence); ("timestamp", JNum timestamp)].

Definition CompleteEvent (vulnerabilities time : Z) (cost : option string)
           (timestamp : Z) : JSValue :=
  JObj [("type", JStr "complete");
        ("summary", JObj ([("vulnerabilities", JNum vulnerabilities); ("time", JNum time)]
                          ++ optKey "cost" cost));
        ("timestamp", JNum timestamp)].

Definition ErrorEvent (message : string) (stack : option string) (timestamp : Z)
  : JSValue :=
  JObj ([("type", JStr "error"); ("message", JStr message)] ++ optKey "stack" stack
        ++ [("timestamp", JNum timestamp)]).

End Types.

(** ** Worked inputs *)

Module Inputs.
Import JS Json Docker Bridge.

Definition progress_line : string :=
  object [field "type" (qt "progress"); field "step" (qt "reasoning");
          field "message" (qt "m"); field "timestamp" "1"].

Definition complete_line : string :=
  object [field "type" (qt "complete");
          field "summary" (object [field "vulnerabilities" "2"; field "time" "10"]);
          field "timestamp" "2"].

(** A Mac with Docker installed whose daemon never comes up. *)
Definition mac_never_up : Env :=
  mkEnv Darwin (fun _ file args =>
    if String.eqb file "docker" then
      match args with
      | ["--version"] => ExecOk "Docker version 24.0.7"
      | _ => ExecFail "Cannot connect to the Docker daemon"
      end
    else ExecOk "").

(** A machine on which everything is in place. *)
Definition all_ready : Env :=
  mkEnv Linux (fun _ file args =>
    match args with
    | ["images"; "-q"; _] => ExecOk "3f2a1b0c9d8e"
    | _ => ExecOk ""
    end).

(** A Mac whose daemon answers from the fifth command on. *)
Definition mac_up_later : Env :=
  mkEnv Darwin (fun n file args =>
    if String.eqb file "docker" then
      match args with
      | ["--version"] => ExecOk "Docker version 24.0.7"
      | ["ps"] => if (n <? 5)%nat then ExecFail "daemon down" else ExecOk ""
      | ["images"; "-q"; _] => ExecOk ""
      | _ => ExecOk ""
      end
    else ExecOk "").

(** A Linux machine with Docker installed and the daemon down. *)
Definition linux_down : Env :=
  mkEnv Linux (fun _ file args =>
    match args with
    | ["--version"] => ExecOk "Docker version 24.0.7"
    | _ => ExecFail "Cannot connect to the Docker daemon"
    end).


Definition example_config : ScanConfig := mkConfig "example.com" None None None.

Definition crash : JSError :=
  mkError "Command failed with exit code 1: python3 inferno_cli.py" (Some "Error: Command failed").

Definition null_stdout : JSError :=
  mkError "Cannot read properties of null (reading 'stdout')"
          (Some "TypeError: Cannot read properties of null (reading 'stdout')").

Definition killed : JSError :=
  mkError "Command was killed with SIGTERM (Termination): python3 inferno_cli.py" None.

Definition late_line : string :=
  object [field "type" (qt "progress"); field "step" (qt "scan");
          field "message" (qt "Running: nmap"); field "timestamp" "3"].

Definition vulnerability (title : string) : JSValue :=
  JObj [("type", JStr "vulnerability"); ("severity", JStr "HIGH"); ("title", JStr title);
        ("endpoint", JStr "/login"); ("evidence", JStr "payload reflected");
        ("timestamp", JNum 5)].

Definition complete_event : JSValue :=
  JObj [("type", JStr "complete");
        ("summary", JObj [("vulnerabilities", JNum 2); ("time", JNum 10)]);
        ("timestamp", JNum 2)].

Definition progress_event (ts : Z) (msg : string) : JSValue :=
  JObj [("type", JStr "progress"); ("step", JStr "scan"); ("message", JStr msg);
        ("timestamp", JNum ts)].

End Inputs.

(** ** Predicates used in the statements and proofs *)

Module Specs.
Import JS Json Docker Bridge ScanDisplay Types.

(** Whatever [m] appends to the trace satisfies [P]. *)
Definition adds (P : Action -> Prop) {A} (m : M A) : Prop :=
  forall env w, exists l, trace (fst (m env w)) = trace w ++ l /\ Forall P l.

Definition not_build (a : Action) : Prop := is_build a = false.

(** The world once the start procedure has run. *)
Definition begun (w : World) : World :=
  mkWorld (S (calls w))
          (trace w ++ [AProgress "Starting Docker..."; AExec "open" ["-a"; "Docker"]]).

(** The three probes succeed from the [n]-th command on. *)
Definition probes_succeed (env : Env) (n : nat) : Prop :=
  is_fail (execa_result env n "docker" ["--version"]) = false /\
  is_fail (execa_result env (S n) "docker" ["ps"]) = false /\
  exists id, execa_result env (S (S n)) "docker" ["images"; "-q"; sandbox_image] = ExecOk id
             /\ trim id <> "".

(** [m] runs at most [c] commands and sleeps at most [s] times, one
    second each. *)
Definition within (c s : nat) {A} (m : M A) : Prop :=
  forall env w,
    calls (fst (m env w)) <= calls w + c /\
    sleeps (trace (fst (m env w))) <= sleeps (trace w) + s /\
    slept (trace (fst (m env w))) <= slept (trace w) + 1000 * s.

(** The handle of the bridge is [null]. *)
Definition cleared (b : PythonBridge) : bool :=
  match process b with
  | None => true
  | Some _ => false
  end.

(** The history and the set of seen keys agree. *)
Definition consistent (st : State) : Prop :=
  NoDup (keysOf (events st)) /\
  logsRef st = list_to_set (keysOf (events st)) /\
  length (keysOf (events st)) = length (events st).

(** A quoted string followed by [rest], as one right-nested text. *)
Definition quoted (s rest : string) : string :=
  String dquote (escapeString s +:+ String dquote rest).

(** The text of the members of a serialized object, up to the closing
    brace, followed by [rest]. *)
Definition fieldText (k v rest : string) : string :=
  quoted k (String ":" (quoted v rest)).

Fixpoint fieldsText (fields : list (string * string)) (rest : string) : string :=
  match fields with
  | [] => String "}" rest
  | [(k, v)] => fieldText k v (String "}" rest)
  | (k, v) :: more => fieldText k v (String "," (fieldsText more rest))
  end.

Definition renderField (kv : string * string) : string :=
  quoteString (fst kv) +:+ ":" +:+ quoteString (snd kv).

Definition record_fields (fields : list (string * string))
           (acc : list (string * JSValue)) : list (string * JSValue) :=
  fold_left (fun a kv => setProp (fst kv) (JStr (snd kv)) a) fields acc.

(** Decimal digits. *)
Definition is_digit (c : ascii) : bool :=
  (48 <=? nat_of_ascii c)%nat && (nat_of_ascii c <=? 57)%nat.

Fixpoint all_digits (s : string) : bool :=
  match s with
  | EmptyString => true
  | String c rest => is_digit c && all_digits rest
  end.

End Specs.

(** * Properties *)

Module JsonExamples.
Import JS Json Inputs.

Example parse_progress_line :
  JSON_parse progress_line =
  Some (JObj [("type", JStr "progress"); ("step", JStr "reasoning");
              ("message", JStr "m"); ("timestamp", JNum 1)]).
Proof. vm_compute. reflexivity. Qed.

Example parse_complete_line :
  JSON_parse complete_line =
  Some (JObj [("type", JStr "complete");
              ("summary", JObj [("vulnerabilities", JNum 2); ("time", JNum 10)]);
              ("timestamp", JNum 2)]).
Proof. vm_compute. reflexivity. Qed.

Example parse_not_json : JSON_parse "not json" = None.
Proof. vm_compute. reflexivity. Qed.

Example parse_trailing : JSON_parse " [1, -20 ,true,null] x" = None.
Proof. vm_compute. reflexivity. Qed.

Example parse_array :
  JSON_parse " [1, -20 ,true,null] " = Some (JArr [JNum 1; JNum (-20); JBool true; JNull]).
Proof. vm_compute. reflexivity. Qed.

Example parse_duplicate_key :
  JSON_parse (object [field "a" "1"; field "b" "2"; field "a" "3"]) =
  Some (JObj [("a", JNum 3); ("b", JNum 2)]).
Proof. vm_compute. reflexivity. Qed.

End JsonExamples.

Module DockerExamples.
Import JS Docker Inputs.

Example run_never_up :
  ensureDocker mac_never_up init_world =
  (mkWorld 33 ([AExec "docker" ["--version"]; AExec "docker" ["ps"];
                AProgress "Starting Docker..."; AExec "open" ["-a"; "Docker"]]
               ++ poll_trace 30),
   Throw start_timeout).
Proof. vm_compute. reflexivity. Qed.

Example run_all_ready :
  ensureDocker all_ready init_world = (mkWorld 3 probe_trace, Ok ready).
Proof. vm_compute. reflexivity. Qed.

Example run_up_later :
  ensureDocker mac_up_later init_world =
  (mkWorld 7 ([AExec "docker" ["--version"]; AExec "docker" ["ps"];
               AProgress "Starting Docker..."; AExec "open" ["-a"; "Docker"]]
               ++ poll_trace 3 ++
               [AProgress "Docker is running";
                AProgress "Building sandbox image...";
                AExec "docker" build_args;
                AProgress "Sandbox image built successfully"]),
   Ok ready).
Proof. vm_compute. reflexivity. Qed.

End DockerExamples.

(** ** The Docker bootstrap *)

Module DockerFacts.
Import JS Docker Inputs Specs.

(** *** The probes *)

Lemma checkDockerRunning_down env w :
  is_fail (execa_result env (calls w) "docker" ["ps"]) = true ->
  checkDockerRunning env w =
  (mkWorld (S (calls w)) (trace w ++ [AExec "docker" ["ps"]]), Ok false).
Proof.
  intros Hf. unfold checkDockerRunning, tryCatch, bind, execa, ret.
  destruct (execa_result env (calls w) "docker" ["ps"]); [discriminate | reflexivity].
Qed.

Lemma checkDockerRunning_up env w :
  is_fail (execa_result env (calls w) "docker" ["ps"]) = false ->
  checkDockerRunning env w =
  (mkWorld (S (calls w)) (trace w ++ [AExec "docker" ["ps"]]), Ok true).
Proof.
  intros Hf. unfold checkDockerRunning, tryCatch, bind, execa, ret.
  destruct (execa_result env (calls w) "docker" ["ps"]); [reflexivity | discriminate].
Qed.

(** *** The polling loop *)

Lemma poll_trace_add n m : poll_trace (n + m) = poll_trace n ++ poll_trace m.
Proof. induction n as [|n IH]; [reflexivity|]. cbn. now rewrite IH. Qed.

Lemma poll_trace_length n : length (poll_trace n) = 2 * n.
Proof. induction n as [|n IH]; simpl in *; lia. Qed.

Lemma pollRunning_step n status env w :
  pollRunning (S n) status env w =
  match checkDockerRunning env (emit (ASleep 1000) w) with
  | (w', Ok true) => (w', Ok (set_running status))
  | (w', Ok false) => pollRunning n status env w'
  | (w', Throw msg) => (w', Throw msg)
  end.
Proof.
  cbn [pollRunning]. unfold bind at 1 2. cbn [sleep].
  destruct (checkDockerRunning env (emit (ASleep 1000) w)) as [w' [[|]|msg]]; reflexivity.
Qed.

(** No attempt succeeds: the loop runs to its bound and leaves the
    status as it was. *)
Lemma pollRunning_exhausted n : forall status env w,
  (forall i, i < n -> is_fail (execa_result env (calls w + i) "docker" ["ps"]) = true) ->
  pollRunning n status env w =
  (mkWorld (calls w + n) (trace w ++ poll_trace n), Ok status).
Proof.
  induction n as [|n IH]; intros status env w Hall.
  - cbn. rewrite Nat.add_0_r, app_nil_r. now destruct w.
  - rewrite pollRunning_step, checkDockerRunning_down.
    + rewrite IH.
      * cbn. f_equal. f_equal; [lia|]. now rewrite <- !app_assoc.
      * intros i Hi. cbn. replace (S (calls w + i)) with (calls w + S i) by lia.
        apply Hall. lia.
    + cbn. rewrite <- (Nat.add_0_r (calls w)). apply Hall. lia.
Qed.

(** The first attempt that succeeds ends the loop. *)
Lemma pollRunning_first_success n : forall j status env w,
  j < n ->
  (forall i, i < j -> is_fail (execa_result env (calls w + i) "docker" ["ps"]) = true) ->
  is_fail (execa_result env (calls w + j) "docker" ["ps"]) = false ->
  pollRunning n status env w =
  (mkWorld (calls w + S j) (trace w ++ poll_trace (S j)), Ok (set_running status)).
Proof.
  induction n as [|n IH]; intros j status env w Hj Hbefore Hat; [lia|].
  rewrite pollRunning_step. destruct j as [|j].
  - rewrite checkDockerRunning_up.
    + cbn. f_equal. f_equal; [lia|]. now rewrite <- !app_assoc.
    + cbn. now rewrite Nat.add_0_r in Hat.
  - rewrite checkDockerRunning_down.
    + rewrite (IH j).
      * cbn. f_equal. f_equal; [lia|]. now rewrite <- !app_assoc.
      * lia.
      * intros i Hi. cbn. replace (S (calls w + i)) with (calls w + S i) by lia.
        apply Hbefore. lia.
      * cbn. now replace (S (calls w + j)) with (calls w + S j) by lia.
    + cbn. rewrite <- (Nat.add_0_r (calls w)). apply Hbefore. lia.
Qed.

(** *** What a computation adds to the trace *)


Section Adds.
Context (P : Action -> Prop).

Lemma adds_ret {A} (a : A) : adds P (ret a).
Proof. intros env w. exists []. cbn. now rewrite app_nil_r. Qed.

Lemma adds_throw {A} msg : adds P (@throw A msg).
Proof. intros env w. exists []. cbn. now rewrite app_nil_r. Qed.

Lemma adds_getPlatform : adds P getPlatform.
Proof. intros env w. exists []. cbn. now rewrite app_nil_r. Qed.

Lemma adds_bind {A B} (m : M A) (k : A -> M B) :
  adds P m -> (forall a, adds P (k a)) -> adds P (bind m k).
Proof.
  intros Hm Hk env w. unfold bind. destruct (Hm env w) as (l1 & E1 & F1).
  destruct (m env w) as [w' [a|msg]]; cbn in *.
  - destruct (Hk a env w') as (l2 & E2 & F2). exists (l1 ++ l2).
    rewrite E2, E1, app_assoc. split; [reflexivity | now apply Forall_app].
  - now exists l1.
Qed.

Lemma adds_tryCatch {A} (m : M A) (h : string -> M A) :
  adds P m -> (forall msg, adds P (h msg)) -> adds P (tryCatch m h).
Proof.
  intros Hm Hh env w. unfold tryCatch. destruct (Hm env w) as (l1 & E1 & F1).
  destruct (m env w) as [w' [a|msg]]; cbn in *.
  - now exists l1.
  - destruct (Hh msg env w') as (l2 & E2 & F2). exists (l1 ++ l2).
    rewrite E2, E1, app_assoc. split; [reflexivity | now apply Forall_app].
Qed.

Lemma adds_execa file args : P (AExec file args) -> adds P (execa file args).
Proof.
  intros HP env w. exists [AExec file args]. unfold execa.
  destruct (execa_result env (calls w) file args); cbn; split; auto.
Qed.

Lemma adds_sleep ms : P (ASleep ms) -> adds P (sleep ms).
Proof. intros HP env w. exists [ASleep ms]. cbn. auto. Qed.

Lemma adds_onProgress msg : P (AProgress msg) -> adds P (onProgress msg).
Proof. intros HP env w. exists [AProgress msg]. cbn. auto. Qed.

End Adds.

Lemma adds_weaken (P Q : Action -> Prop) {A} (m : M A) :
  (forall a, P a -> Q a) -> adds P m -> adds Q m.
Proof.
  intros HPQ Hm env w. destruct (Hm env w) as (l & E & F).
  exists l. split; [exact E | eapply Forall_impl; eauto].
Qed.

Ltac adds_tac :=
  repeat first
    [ apply adds_ret | apply adds_throw | apply adds_getPlatform
    | apply adds_bind; [| intros ?] | apply adds_tryCatch; [| intros ?]
    | apply adds_execa; cbn; try reflexivity; try discriminate
    | apply adds_sleep; cbn; try reflexivity; try discriminate
    | apply adds_onProgress; cbn; try reflexivity; try discriminate
    | match goal with
      | |- adds _ (if ?b then _ else _) => destruct b
      | |- adds _ (match ?x with _ => _ end) => destruct x
      end ].


Lemma getDockerStatus_probes : adds (fun a => is_probe a = true) getDockerStatus.
Proof. unfold getDockerStatus, checkDockerInstalled, checkDockerRunning, checkImageBuilt. adds_tac. Qed.

Lemma installDockerMac_no_build : adds not_build installDockerMac.
Proof. unfold installDockerMac, not_build. adds_tac. Qed.

Lemma probe_not_build a : is_probe a = true -> not_build a.
Proof.
  unfold not_build. destruct a as [file args| |]; cbn; try reflexivity.
  destruct args as [|a0 args]; [reflexivity|].
  destruct (String.eqb_spec file "docker"); [|reflexivity]. cbn.
  destruct (String.eqb_spec a0 "build") as [->|]; [|reflexivity].
  repeat case_bool_decide; try discriminate.
  destruct args as [|? [|? [|? ?]]]; cbn; discriminate.
Qed.

Lemma getDockerStatus_no_build : adds not_build getDockerStatus.
Proof. eapply adds_weaken; [apply probe_not_build | apply getDockerStatus_probes]. Qed.

Lemma installStage_no_build status : adds not_build (installStage status).
Proof.
  unfold installStage. destruct (negb (installed status)); [|apply adds_ret].
  apply adds_bind; [now apply adds_onProgress | intros _].
  apply adds_bind; [apply installDockerMac_no_build | intros _].
  apply adds_bind; [now apply adds_onProgress | intros _]. apply adds_ret.
Qed.


(** *** The stages of [ensureDocker] *)

Lemma ensureDocker_stages env w :
  ensureDocker env w =
  match (let* s := getDockerStatus in installStage s) env w with
  | (w1, Ok status) => (let* s := startStage status in buildStage s) env w1
  | (w1, Throw msg) => (w1, Throw msg)
  end.
Proof.
  unfold ensureDocker, bind.
  destruct (getDockerStatus env w) as [w0 [s|m]]; [|reflexivity].
  destruct (installStage s env w0) as [w1 [s1|m]]; reflexivity.
Qed.


Lemma startStage_begin env w status out :
  running status = false ->
  platform env = Darwin ->
  execa_result env (calls w) "open" ["-a"; "Docker"] = ExecOk out ->
  startStage status env w =
  match pollRunning 30 status env (begun w) with
  | (w', Ok s) =>
      if negb (running s) then (w', Throw start_timeout)
      else (emit (AProgress "Docker is running") w', Ok s)
  | (w', Throw m) => (w', Throw m)
  end.
Proof.
  intros Hrun Hos Hopen. unfold startStage. rewrite Hrun.
  destruct w as [c tr]. cbn [calls] in Hopen.
  cbv beta iota delta [negb bind onProgress startDockerDesktop getPlatform execa ret emit
                       calls trace begun].
  rewrite Hos. cbv beta iota. rewrite Hopen. cbv beta iota.
  rewrite <- app_assoc. cbn [app].
  destruct (pollRunning 30 status env _) as [w' [s|m]]; [|reflexivity].
  destruct (running s); reflexivity.
Qed.

Lemma buildStage_adds status :
  adds (fun a => a <> ASleep 1000 /\ a <> AExec "docker" ["ps"]) (buildStage status).
Proof.
  unfold buildStage, buildSandboxImage. adds_tac; split; discriminate.
Qed.

Lemma buildStage_not_timeout status env w :
  snd (buildStage status env w) <> Throw start_timeout.
Proof.
  unfold buildStage, buildSandboxImage, tryCatch, bind, onProgress, execa, ret, throw.
  destruct (negb (imageBuilt status)); [|discriminate]. cbn.
  destruct (execa_result env _ _ _); cbn; discriminate.
Qed.


(** C7.  Start stage of [ensureDocker].  When the probe (and the install
    stage, if it ran) leaves the engine not running and the start
    procedure succeeds, the running status is polled after a one-second
    sleep, at most 30 times.  The first attempt that succeeds ends the
    polling: no further sleep or poll follows and the timeout error is not
    raised.  If none of the 30 attempts succeeds, [ensureDocker] throws
    the start timeout error, after exactly 30 rounds, and the whole run
    contains no build action. *)
Theorem ensureDocker_start_polling env w1 status out :
  (let* s := getDockerStatus in installStage s) env init_world = (w1, Ok status) ->
  running status = false ->
  platform env = Darwin ->
  execa_result env (calls w1) "open" ["-a"; "Docker"] = ExecOk out ->
  (forall j,
     j < 30 ->
     (forall i, i < j ->
        is_fail (execa_result env (S (calls w1) + i) "docker" ["ps"]) = true) ->
     is_fail (execa_result env (S (calls w1) + j) "docker" ["ps"]) = false ->
     exists w rest r,
       ensureDocker env init_world = (w, r) /\
       trace w = trace (begun w1) ++ poll_trace (S j)
                 ++ AProgress "Docker is running" :: rest /\
       Forall (fun a => a <> ASleep 1000 /\ a <> AExec "docker" ["ps"]) rest /\
       r <> Throw start_timeout)
  /\
  ((forall i, i < 30 ->
      is_fail (execa_result env (S (calls w1) + i) "docker" ["ps"]) = true) ->
   exists w,
     ensureDocker env init_world = (w, Throw start_timeout) /\
     trace w = trace (begun w1) ++ poll_trace 30 /\
     Forall (fun a => is_build a = false) (trace w)).
Proof.
  intros Hpre Hrun Hos Hopen. split.
  - intros j Hj Hbefore Hat.
    rewrite ensureDocker_stages, Hpre. unfold bind at 1.
    rewrite (startStage_begin _ _ _ _ Hrun Hos Hopen).
    rewrite (pollRunning_first_success 30 j status env (begun w1) Hj Hbefore Hat).
    cbn [negb running set_running].
    set (w2 := emit _ _).
    destruct (buildStage_adds (set_running status) env w2) as (rest & Htr & Hrest).
    pose proof (buildStage_not_timeout (set_running status) env w2) as Hne.
    destruct (buildStage (set_running status) env w2) as [w3 r] eqn:Hb.
    exists w3, rest, r. cbn [fst snd] in *. repeat split; auto.
    rewrite Htr. subst w2. cbn [emit trace]. now rewrite <- !app_assoc.
  - intros Hall.
    rewrite ensureDocker_stages, Hpre. unfold bind at 1.
    rewrite (startStage_begin _ _ _ _ Hrun Hos Hopen).
    rewrite (pollRunning_exhausted 30 status env (begun w1) Hall).
    rewrite Hrun. cbn [negb].
    eexists. split; [reflexivity|]. cbn [trace]. split; [reflexivity|].
    assert (Hw1 : Forall not_build (trace w1)).
    { assert (Ha : adds not_build (let* s := getDockerStatus in installStage s)).
      { apply adds_bind; [apply getDockerStatus_no_build | apply installStage_no_build]. }
      destruct (Ha env init_world) as (l & E & F). rewrite Hpre in E. cbn in E.
      now rewrite E. }
    unfold begun. cbn [trace]. rewrite !Forall_app. repeat split; auto.
    cbn. repeat constructor.
Qed.

(** At a Mac whose daemon never answers: the timeout branch. *)
Lemma ensureDocker_start_polling_witness :
  exists w,
    ensureDocker mac_never_up init_world = (w, Throw start_timeout) /\
    trace w = trace (begun (mkWorld 2 [AExec "docker" ["--version"]; AExec "docker" ["ps"]]))
              ++ poll_trace 30 /\
    Forall (fun a => is_build a = false) (trace w).
Proof.
  refine (proj2 (ensureDocker_start_polling mac_never_up
                   (mkWorld 2 [AExec "docker" ["--version"]; AExec "docker" ["ps"]])
                   (mkStatus true false false) "" _ _ _ _) _).
  - reflexivity.
  - reflexivity.
  - reflexivity.
  - reflexivity.
  - intros i Hi. reflexivity.
Defined.

(** *** An environment that is ready *)


Lemma bind_ok {A B} (m : M A) (k : A -> M B) env w w' a :
  m env w = (w', Ok a) -> bind m k env w = k a env w'.
Proof. intros H. unfold bind. now rewrite H. Qed.

Lemma bind_throw {A B} (m : M A) (k : A -> M B) env w w' msg :
  m env w = (w', Throw msg) -> bind m k env w = (w', Throw msg).
Proof. intros H. unfold bind. now rewrite H. Qed.

Lemma checkDockerInstalled_ok env w :
  is_fail (execa_result env (calls w) "docker" ["--version"]) = false ->
  checkDockerInstalled env w =
  (mkWorld (S (calls w)) (trace w ++ [AExec "docker" ["--version"]]), Ok true).
Proof.
  intros Hf. unfold checkDockerInstalled, tryCatch, bind, execa, ret.
  destruct (execa_result env (calls w) "docker" ["--version"]); [reflexivity | discriminate].
Qed.

Lemma checkDockerInstalled_missing env w :
  is_fail (execa_result env (calls w) "docker" ["--version"]) = true ->
  checkDockerInstalled env w =
  (mkWorld (S (calls w)) (trace w ++ [AExec "docker" ["--version"]]), Ok false).
Proof.
  intros Hf. unfold checkDockerInstalled, tryCatch, bind, execa, ret.
  destruct (execa_result env (calls w) "docker" ["--version"]); [discriminate | reflexivity].
Qed.

Lemma checkImageBuilt_run name env w :
  checkImageBuilt name env w =
  (mkWorld (S (calls w)) (trace w ++ [AExec "docker" ["images"; "-q"; name]]),
   Ok match execa_result env (calls w) "docker" ["images"; "-q"; name] with
      | ExecOk out => negb (String.eqb (trim out) "")
      | ExecFail _ => false
      end).
Proof.
  unfold checkImageBuilt, tryCatch, bind, execa, ret.
  destruct (execa_result env (calls w) "docker" _) as [out|msg]; [|reflexivity].
  now destruct (trim out).
Qed.

Lemma getDockerStatus_ready env w :
  probes_succeed env (calls w) ->
  getDockerStatus env w = (mkWorld (calls w + 3) (trace w ++ probe_trace), Ok ready).
Proof.
  intros (Hv & Hp & id & Hi & Hid). unfold getDockerStatus.
  rewrite (bind_ok _ _ _ _ _ _ (checkDockerInstalled_ok env w Hv)).
  rewrite (bind_ok _ _ _ _ _ _
             (checkDockerRunning_up env (mkWorld (S (calls w)) _) Hp)).
  rewrite (bind_ok _ _ _ _ _ _ (checkImageBuilt_run sandbox_image env _)).
  cbn [calls trace]. rewrite Hi.
  destruct (String.eqb_spec (trim id) ""); [contradiction|].
  cbn. rewrite <- !app_assoc. cbn. unfold ret. f_equal. f_equal. lia.
Qed.

Lemma ensureDocker_ready env w :
  probes_succeed env (calls w) ->
  ensureDocker env w = (mkWorld (calls w + 3) (trace w ++ probe_trace), Ok ready).
Proof.
  intros H. unfold ensureDocker.
  rewrite (bind_ok _ _ _ _ _ _ (getDockerStatus_ready env w H)). reflexivity.
Qed.

(** C8.  [ensureDocker] on a ready environment: when the probe reports
    installed, running and image built, the call runs the three read-only
    probes and nothing else -- no progress message, no install, no start,
    no sleep, no poll, no build -- and returns the ready status; called
    twice in a row on such an environment, the second call again adds
    only its three probes. *)
Theorem ensureDocker_idempotent env w :
  probes_succeed env (calls w) ->
  ensureDocker env w = (mkWorld (calls w + 3) (trace w ++ probe_trace), Ok ready) /\
  (probes_succeed env (calls w + 3) ->
   (ensureDocker ;;; ensureDocker) env w =
   (mkWorld (calls w + 6) (trace w ++ probe_trace ++ probe_trace), Ok ready)).
Proof.
  intros H1. split; [now apply ensureDocker_ready|].
  intros H2. unfold bind. rewrite (ensureDocker_ready env w H1).
  rewrite ensureDocker_ready; [|exact H2].
  cbn [calls trace]. rewrite <- app_assoc. do 2 f_equal. lia.
Qed.

Lemma all_ready_probes n : probes_succeed all_ready n.
Proof.
  repeat split. exists "3f2a1b0c9d8e". split; [reflexivity | discriminate].
Qed.

Lemma ensureDocker_idempotent_witness :
  ensureDocker all_ready init_world = (mkWorld 3 probe_trace, Ok ready) /\
  (ensureDocker ;;; ensureDocker) all_ready init_world =
  (mkWorld 6 (probe_trace ++ probe_trace), Ok ready).
Proof.
  destruct (ensureDocker_idempotent all_ready init_world (all_ready_probes 0)) as [H1 H2].
  split; [exact H1 | exact (H2 (all_ready_probes 3))].
Defined.

End DockerFacts.

(** ** The Python bridge *)

Module BridgeFacts.
Import JS Json Bridge Inputs Specs.

Section WithParser.

Variable JSON_parse : string -> option JSValue.
Variable nullStdout : JSError.

Lemma delivered_app l1 l2 : delivered (l1 ++ l2) = delivered l1 ++ delivered l2.
Proof. unfold delivered. apply omap_app. Qed.

Lemma run_app b t1 t2 :
  run JSON_parse nullStdout b (t1 ++ t2) = run JSON_parse nullStdout (run JSON_parse nullStdout b t1) t2.
Proof. unfold run. apply fold_left_app. Qed.

Lemma run_cons b t ticks :
  run JSON_parse nullStdout b (t :: ticks) = run JSON_parse nullStdout (step JSON_parse nullStdout b t) ticks.
Proof. reflexivity. Qed.

Lemma onLine_delivered line b :
  delivered (effects (onLine JSON_parse line b)) =
  delivered (effects b) ++ lineEvents JSON_parse [line].
Proof.
  unfold onLine, lineEvents, lineEvent. cbn.
  destruct (String.eqb (trim line) ""); cbn; [now rewrite app_nil_r|].
  destruct (JSON_parse line); cbn; [|now rewrite app_nil_r].
  now rewrite delivered_app.
Qed.

Lemma onLine_state line b :
  process (onLine JSON_parse line b) = process b /\
  phase (onLine JSON_parse line b) = phase b.
Proof.
  unfold onLine. destruct (String.eqb (trim line) ""); [easy|].
  destruct (JSON_parse line); easy.
Qed.

Lemma lineEvents_cons line lines :
  lineEvents JSON_parse (line :: lines) =
  lineEvents JSON_parse [line] ++ lineEvents JSON_parse lines.
Proof. unfold lineEvents. cbn. now destruct (lineEvent JSON_parse line). Qed.

(** Reading lines changes neither the handle nor the phase, and
    delivers the events of the lines in order. *)
Lemma run_lines lines : forall b,
  phase b = Reading ->
  process (run JSON_parse nullStdout b (map Line lines)) = process b /\
  phase (run JSON_parse nullStdout b (map Line lines)) = Reading /\
  delivered (effects (run JSON_parse nullStdout b (map Line lines))) =
  delivered (effects b) ++ lineEvents JSON_parse lines.
Proof.
  induction lines as [|line lines IH]; intros b Hph.
  - cbn. now rewrite app_nil_r.
  - cbn [map]. rewrite run_cons.
    assert (Hstep : step JSON_parse nullStdout b (Line line) = onLine JSON_parse line b)
      by (cbn; now rewrite Hph).
    rewrite Hstep. destruct (onLine_state line b) as [Hp Hq].
    destruct (IH (onLine JSON_parse line b)) as (H1 & H2 & H3); [now rewrite Hq|].
    rewrite H1, H2, H3, Hp, onLine_delivered, (lineEvents_cons line lines), <- app_assoc.
    easy.
Qed.

(** Once [startScan] has returned, nothing more is delivered. *)
Lemma run_returned ticks : forall b,
  phase b = Returned ->
  phase (run JSON_parse nullStdout b ticks) = Returned /\
  delivered (effects (run JSON_parse nullStdout b ticks)) = delivered (effects b).
Proof.
  induction ticks as [|t ticks IH]; intros b Hph; [easy|].
  rewrite run_cons.
  assert (Hs : phase (step JSON_parse nullStdout b t) = Returned /\
               delivered (effects (step JSON_parse nullStdout b t)) = delivered (effects b)).
  { destruct t; cbn; rewrite ?Hph; auto.
    unfold stop. destruct (process b); cbn; auto.
    rewrite delivered_app. cbn. now rewrite app_nil_r. }
  destruct Hs as [Hs1 Hs2]. destruct (IH _ Hs1) as [H1 H2]. now rewrite H1, H2.
Qed.

(** The events of a run that nobody stops: those of the lines, then
    the synthesized error if the process promise rejects. *)
Lemma unstopped_delivered config lines outcome :
  delivered (effects (run JSON_parse nullStdout (startScan config fresh) (unstopped lines outcome))) =
  lineEvents JSON_parse lines ++ synthesized outcome.
Proof.
  unfold unstopped. rewrite run_cons, run_app.
  change (step JSON_parse nullStdout (startScan config fresh) Imported)
    with (set_phase Reading (startScan config fresh)).
  destruct (run_lines lines (set_phase Reading (startScan config fresh)) eq_refl)
    as (Hp & Hq & Hd).
  set (b := run JSON_parse nullStdout (set_phase Reading (startScan config fresh))
                (map Line lines)) in *.
  cbn in Hp, Hd. rewrite !run_cons. cbn [run fold_left].
  unfold step at 2. rewrite Hq, Hp. cbn [step set_phase phase].
  destruct outcome as [|error]; cbn [set_phase effects perform synthesized].
  - now rewrite app_nil_r.
  - rewrite delivered_app, Hd. reflexivity.
Qed.

End WithParser.

Lemma errorEvent_terminal error : isTerminal (errorEvent error) = true.
Proof. reflexivity. Qed.

(** C1 (as the code has it).  In a run that nobody stops, the bridge
    hands to [onEvent] the events of the lines, in order, and then exactly
    one synthesized error event if the awaited process promise rejects
    (non-zero exit, signal, spawn failure) and none if it is fulfilled --
    whether or not a terminal event was among the lines.  The number of
    terminal events the consumer observes is therefore the number of
    terminal events among the lines, plus one when the process failed. *)
Theorem startScan_terminal_events JSON_parse nullStdout config lines outcome :
  let effs := effects (run JSON_parse nullStdout (startScan config fresh) (unstopped lines outcome)) in
  delivered effs = lineEvents JSON_parse lines ++ synthesized outcome /\
  length (terminals effs) =
  length (List.filter isTerminal (lineEvents JSON_parse lines))
  + match outcome with Rejected _ => 1 | Fulfilled => 0 end.
Proof.
  cbn zeta. unfold terminals. rewrite unstopped_delivered. split; [reflexivity|].
  rewrite List.filter_app, length_app. f_equal.
  destruct outcome as [|error]; reflexivity.
Qed.

(** The claim of exactly one terminal event per run fails both ways:
    a process that exits normally without a terminal line gives none, and
    a process that prints [complete] and then fails gives two. *)
Lemma startScan_one_terminal_counterexample :
  let silent := run JSON_parse null_stdout (startScan example_config fresh)
                    (unstopped [progress_line] Fulfilled) in
  let doubled := run JSON_parse null_stdout (startScan example_config fresh)
                     (unstopped [progress_line; complete_line] (Rejected crash)) in
  (length (terminals (effects silent)) = 0 /\ ~ oneTerminal (effects silent)) /\
  (length (terminals (effects doubled)) = 2 /\ ~ oneTerminal (effects doubled)).
Proof. cbn zeta. unfold oneTerminal. repeat split; vm_compute; congruence. Qed.

(** The lines of the end-to-end example: two of the four carry an
    event. *)
Example end_to_end :
  delivered (effects (run JSON_parse null_stdout (startScan example_config fresh)
                          (unstopped ["not json"; ""; progress_line; complete_line]
                                     Fulfilled))) =
  [JObj [("type", JStr "progress"); ("step", JStr "reasoning");
         ("message", JStr "m"); ("timestamp", JNum 1)];
   complete_event].
Proof. vm_compute. reflexivity. Qed.

(** *** [stop] *)

Lemma stop_idempotent b : stop (stop b) = stop b.
Proof. unfold stop. destruct (process b) eqn:E; cbn; [reflexivity | now rewrite E]. Qed.

Lemma stop_clears b : process (stop b) = None.
Proof. unfold stop. destruct (process b) eqn:E; cbn; [reflexivity | exact E]. Qed.

Lemma stop_cleared b : process b = None -> stop b = b.
Proof. unfold stop. now intros ->. Qed.

(** With the handle cleared while the lines are read, the lines still
    reach [onEvent], and the end of the output returns without an error
    event. *)
Lemma run_cleared JSON_parse nullStdout ticks : forall b,
  phase b = Reading -> process b = None ->
  delivered (effects (run JSON_parse nullStdout b ticks)) =
  delivered (effects b) ++ lineEvents JSON_parse (readLines ticks).
Proof.
  induction ticks as [|t ticks IH]; intros b Hph Hpr.
  - cbn. now rewrite app_nil_r.
  - rewrite run_cons. destruct t as [|line| |outcome|].
    + cbn [step readLines]. rewrite Hph. now apply IH.
    + assert (Hstep : step JSON_parse nullStdout b (Line line) = onLine JSON_parse line b)
        by (cbn; now rewrite Hph).
      rewrite Hstep. destruct (onLine_state JSON_parse line b) as [Hp Hq].
      rewrite IH; [|now rewrite Hq | now rewrite Hp].
      rewrite onLine_delivered. cbn [readLines].
      rewrite (lineEvents_cons JSON_parse line (readLines ticks)).
      now rewrite <- app_assoc.
    + cbn [step readLines]. rewrite Hph, Hpr.
      destruct (run_returned JSON_parse nullStdout ticks (set_phase Returned b) eq_refl)
        as [_ ->].
      cbn. now rewrite app_nil_r.
    + cbn [step readLines]. rewrite Hph. now apply IH.
    + cbn [step readLines]. rewrite (stop_cleared b Hpr). now apply IH.
Qed.

Lemma stop_effects b :
  effects (stop b) = effects b ++ (if cleared b then [] else [Kill]).
Proof. unfold stop, cleared. destruct (process b); cbn; [reflexivity | now rewrite app_nil_r]. Qed.

Lemma stop_keeps_phase b : phase (stop b) = phase b.
Proof. unfold stop. now destruct (process b). Qed.

(** C5 (as the code has it).  On every bridge, [stop] sends the kill
    when the handle is set and sends nothing otherwise, clears the
    handle, and leaves [startScan] where it stands; a second call, or a
    call on a bridge that never started, does nothing.  A [stop] issued
    while [startScan] reads lines does not silence the bridge: every line
    read afterwards is still parsed and handed to [onEvent]; what it
    prevents is the synthesized error, since the cleared handle is what
    gets awaited when the output ends. *)
Theorem stop_while_reading JSON_parse nullStdout b ticks :
  (effects (stop b) = effects b ++ (if cleared b then [] else [Kill]) /\
   process (stop b) = None /\
   phase (stop b) = phase b /\
   stop (stop b) = stop b /\
   stop fresh = fresh) /\
  (phase b = Reading ->
   delivered (effects (run JSON_parse nullStdout (stop b) ticks)) =
   delivered (effects b) ++ lineEvents JSON_parse (readLines ticks)).
Proof.
  split.
  - split; [apply stop_effects|]. split; [apply stop_clears|].
    split; [apply stop_keeps_phase|]. split; [apply stop_idempotent | reflexivity].
  - intros Hph. rewrite run_cleared.
    + f_equal. rewrite stop_effects, delivered_app.
      destruct (cleared b); cbn; now rewrite app_nil_r.
    + now rewrite stop_keeps_phase.
    + apply stop_clears.
Qed.

(** At a bridge that has read one line: the stop, one more line, the
    end of the output and the rejection caused by the kill. *)
Lemma stop_while_reading_witness :
  let b := run JSON_parse null_stdout (startScan example_config fresh)
               [Imported; Line progress_line] in
  let ticks := [Line late_line; Close; Settle (Rejected killed)] in
  phase b = Reading /\
  effects (stop b) = effects b ++ [Kill] /\
  stop (stop b) = stop b /\
  delivered (effects (run JSON_parse null_stdout (stop b) ticks)) =
  delivered (effects b) ++ lineEvents JSON_parse (readLines ticks).
Proof.
  cbn zeta.
  destruct (stop_while_reading JSON_parse null_stdout
              (run JSON_parse null_stdout (startScan example_config fresh)
                   [Imported; Line progress_line])
              [Line late_line; Close; Settle (Rejected killed)])
    as [(Heff & _ & _ & Hidem & _) Hread].
  split; [reflexivity|]. split; [exact Heff|]. split; [exact Hidem|].
  exact (Hread eq_refl).
Defined.

(** After [stop], [onEvent] is still called: for a line that was
    buffered, for the rejection of a promise already awaited, and for the
    TypeError of a stop that came before the import resolved. *)
Lemma stop_silences_counterexample :
  quietAfterStop (effects (run JSON_parse null_stdout (startScan example_config fresh)
                               [Imported; Line progress_line; StopCall; Line late_line;
                                Close]))
  = false /\
  quietAfterStop (effects (run JSON_parse null_stdout (startScan example_config fresh)
                               [Imported; Close; StopCall; Settle (Rejected killed)]))
  = false /\
  quietAfterStop (effects (run JSON_parse null_stdout (startScan example_config fresh)
                               [StopCall; Imported]))
  = false.
Proof. repeat split; vm_compute; reflexivity. Qed.

End BridgeFacts.

(** ** The configuration line and the synthesized event *)

Module WireFacts.
Import JS Json Bridge Inputs Specs.

Lemma newlines_app s t : newlines (s +:+ t) = newlines s + newlines t.
Proof.
  induction s as [|c s IH]; [reflexivity|].
  change (String c s +:+ t) with (String c (s +:+ t)). cbn [newlines]. rewrite IH. lia.
Qed.

Lemma escapeChar_newlines c : newlines (escapeChar c) = 0.
Proof. destruct c as [[] [] [] [] [] [] [] []]; reflexivity. Qed.

Lemma escapeString_newlines s : newlines (escapeString s) = 0.
Proof.
  induction s as [|c s IH]; [reflexivity|].
  cbn [escapeString]. now rewrite newlines_app, escapeChar_newlines, IH.
Qed.

(** A quoted string holds no raw line feed. *)
Lemma quoteString_newlines s : newlines (quoteString s) = 0.
Proof.
  unfold quoteString.
  change (String dquote (escapeString s)) with (String dquote "" +:+ escapeString s).
  now rewrite !newlines_app, escapeString_newlines.
Qed.

Lemma config_line_form config :
  config_line config =
  ("{" +:+ join "," ((quoteString "target" +:+ ":" +:+ quoteString (target config))
                     :: present "objective" (objective config)
                     ++ present "provider" (provider config)
                     ++ present "model" (model config)) +:+ "}") +:+ newline.
Proof. destruct config as [t [o|] [p|] [m|]]; reflexivity. Qed.

(** C9.  The configuration on the wire.  [startScan] first spawns the
    process and then writes one piece of data, [JSON.stringify(config)]
    followed by a line feed.  The serialization is the flat object with
    the key [target] and, for each of [objective], [provider] and [model],
    a member when the key is set and nothing when it is unset: an unset
    key is left out, never written as an empty string.  The written data
    holds exactly one line feed, the final one.  An objective submitted
    empty by the user becomes an unset key, and for the target
    [example.com] with no objective the line is the object with the
    single key [target]. *)
Theorem config_line_omits_unset config :
  effects (startScan config fresh) = [Spawn; StdinWrite (config_line config)] /\
  config_line config =
    ("{" +:+ join "," ((quoteString "target" +:+ ":" +:+ quoteString (target config))
                       :: present "objective" (objective config)
                       ++ present "provider" (provider config)
                       ++ present "model" (model config)) +:+ "}") +:+ newline /\
  serializedKeys (config_object config) =
    "target" :: keyIf "objective" (objective config)
             ++ keyIf "provider" (provider config) ++ keyIf "model" (model config) /\
  newlines (config_line config) = 1 /\
  (forall st, snd (TargetInput.handleObjectiveSubmit "" st)
              = mkConfig (TargetInput.target st) None None None) /\
  config_line example_config = object [field "target" (qt "example.com")] +:+ newline.
Proof.
  split; [reflexivity|]. split; [apply config_line_form|].
  split; [destruct config as [t [o|] [p|] [m|]]; reflexivity|].
  split; [|split; [reflexivity | vm_compute; reflexivity]].
  rewrite config_line_form.
  destruct config as [t [o|] [p|] [m|]]; cbn [present app join target objective provider model];
    rewrite ?newlines_app, ?quoteString_newlines; reflexivity.
Qed.

(** C10.  The event synthesized in the [catch] block has exactly the
    keys [type], [message] and [stack]; reading [timestamp] on it gives
    [undefined].  Whenever the process promise of an unstopped run
    rejects, this event is the last one handed to the consumer, and the
    display keys it with the text [undefined] in place of a time. *)
Theorem errorEvent_has_no_timestamp JSON_parse nullStdout config lines error :
  ownKeys (errorEvent error) = ["type"; "message"; "stack"] /\
  getProp (errorEvent error) "timestamp" = Some JUndefined /\
  delivered (effects (run JSON_parse nullStdout (startScan config fresh)
                          (unstopped lines (Rejected error)))) =
    lineEvents JSON_parse lines ++ [errorEvent error] /\
  ScanDisplay.dedupKey (errorEvent error) =
    Some ("error-undefined-" +:+
          (if String.eqb (message error) "" then "Scan failed" else message error)).
Proof.
  repeat split.
  apply (BridgeFacts.unstopped_delivered JSON_parse nullStdout config lines (Rejected error)).
Qed.

End WireFacts.

(** ** The event stream of a session *)

Module DisplayFacts.
Import JS Json Bridge ScanDisplay Types Inputs Specs.

(** *** The window *)



Lemma sliceLast_short {A} n (xs : list A) : length xs <= n -> sliceLast n xs = xs.
Proof. intros H. unfold sliceLast. now replace (length xs - n) with 0 by lia. Qed.

Lemma typeIs_exclusive a b e : a <> b -> typeIs a e = true -> typeIs b e = false.
Proof.
  unfold typeIs, strictEqStr. intros Hab.
  destruct (getProp e "type") as [[| | | |t| |]|]; try discriminate.
  destruct (String.eqb_spec t a); [subst|discriminate]. intros _.
  destruct (String.eqb_spec a b); [contradiction | reflexivity].
Qed.





(** *** Recording *)

Lemma finish_events event st : events (finish event st) = events st.
Proof. unfold finish. now destruct (_ || _). Qed.

Lemma finish_logsRef event st : logsRef (finish event st) = logsRef st.
Proof. unfold finish. now destruct (_ || _). Qed.

Lemma finish_isComplete event st :
  isComplete (finish event st) = isComplete st || isTerminal event.
Proof.
  unfold finish, isTerminal. destruct (_ || _); cbn; [now rewrite orb_true_r|].
  now rewrite orb_false_r.
Qed.

Lemma record_seen key event st : key ∈ logsRef (record key event st).
Proof. unfold record. case_decide; cbn; [assumption | set_solver]. Qed.

Lemma deliver_key st event key :
  dedupKey event = Some key ->
  deliver st event = finish event (record key event st).
Proof. intros H. unfold deliver, onEvent. now rewrite H. Qed.

(** Two events with the same key: the second one is not recorded. *)
Lemma same_key_once st e1 e2 key :
  dedupKey e1 = Some key -> dedupKey e2 = Some key ->
  events (deliver (deliver st e1) e2) = events (deliver st e1).
Proof.
  intros H1 H2. rewrite (deliver_key _ e2 key H2), finish_events.
  unfold record at 1. case_decide as Hin; [reflexivity|].
  exfalso. apply Hin. rewrite (deliver_key _ e1 key H1), finish_logsRef.
  apply record_seen.
Qed.

(** C2 (as the code has it).  The handler of the display has no gate on
    [isComplete]: an event whose key was not seen before is appended to
    the history whether or not a terminal event was observed earlier, an
    event whose key was seen is dropped, and a terminal event only sets
    [isComplete], which is never reset.  An event on which the key cannot
    be computed leaves the state as it was. *)
Theorem onEvent_ignores_isComplete st event :
  match dedupKey event with
  | Some key =>
      events (deliver st event) =
        (if decide (key ∈ logsRef st) then events st else events st ++ [event]) /\
      isComplete (deliver st event) = isComplete st || isTerminal event
  | None => deliver st event = st
  end.
Proof.
  destruct (dedupKey event) as [key|] eqn:Hk.
  - rewrite (deliver_key _ _ _ Hk), finish_events, finish_isComplete. split.
    + unfold record. now case_decide.
    + unfold record. now case_decide.
  - unfold deliver, onEvent. now rewrite Hk.
Qed.

(** After a [complete] event the history still grows: a later
    [progress] event is recorded and shown. *)
Lemma no_event_after_terminal_counterexample :
  let st1 := deliver initial complete_event in
  let st2 := deliver st1 (progress_event 3 "Running: nmap") in
  isComplete st1 = true /\
  events st2 = events st1 ++ [progress_event 3 "Running: nmap"] /\
  length (displayEvents st1) = 0 /\ length (displayEvents st2) = 1.
Proof. cbn zeta. repeat split; vm_compute; reflexivity. Qed.

(** C3 (the defect).  The key is built from [type], [timestamp] and
    [message]; a vulnerability event has no [message], so its key ends in
    [undefined] and depends on the time alone.  Two vulnerability events
    with the same timestamp, whatever their severity, title, endpoint and
    evidence, share their key, and the second one is dropped from the
    history and from the log. *)
Theorem dedup_collapses_vulnerabilities st sev1 title1 ep1 ev1 sev2 title2 ep2 ev2 ts :
  let v1 := VulnerabilityEvent sev1 title1 ep1 ev1 ts in
  let v2 := VulnerabilityEvent sev2 title2 ep2 ev2 ts in
  dedupKey v1 = Some ("vulnerability-" +:+ pretty ts +:+ "-undefined") /\
  dedupKey v2 = dedupKey v1 /\
  events (deliver (deliver st v1) v2) = events (deliver st v1) /\
  displayEvents (deliver (deliver initial v1) v2) = [v1].
Proof.
  cbn zeta. split; [reflexivity|]. split; [reflexivity|]. split.
  - eapply same_key_once; reflexivity.
  - set (v1 := VulnerabilityEvent sev1 title1 ep1 ev1 ts).
    set (v2 := VulnerabilityEvent sev2 title2 ep2 ev2 ts).
    assert (H : events (deliver (deliver initial v1) v2) = [v1]).
    { rewrite (same_key_once initial v1 v2 _ eq_refl eq_refl).
      rewrite (deliver_key initial v1 _ eq_refl), finish_events.
      unfold record. case_decide as Hin; [|reflexivity]. cbn in Hin. set_solver. }
    unfold displayEvents, logEvents. rewrite H. reflexivity.
Qed.

End DisplayFacts.

(** ** From the input screen to the process *)

Module AppFacts.
Import JS Json Bridge Inputs.

(** C4 (as the code has it).  Nothing validates the target: whatever
    the user submits as target and objective, the empty string included,
    [App] moves to the scanning screen with a configuration carrying that
    target, mounts the display, and the bridge spawns the process and
    writes the configuration line. *)
Theorem submit_reaches_bridge targetValue objectiveValue screen0 config0 :
  let config := mkConfig targetValue (orUndefined objectiveValue) None None in
  let st := App.submitBoth targetValue objectiveValue (App.mkState screen0 config0 None) in
  App.render st = App.VScanDisplay config /\
  App.started st = Some (startScan config fresh) /\
  effects (startScan config fresh) = [Spawn; StdinWrite (config_line config)].
Proof. cbn zeta. repeat split. Qed.

(** An empty target is not rejected: the process is spawned and the
    configuration with the empty target is written to it. *)
Lemma empty_target_counterexample :
  exists b,
    App.started (App.submitBoth "" "" (App.onReady App.initial)) = Some b /\
    target (mkConfig "" None None None) = "" /\
    In Spawn (effects b) /\
    effects b = [Spawn; StdinWrite (object [field "target" (qt "")] +:+ newline)].
Proof.
  eexists. split; [reflexivity|]. split; [reflexivity|]. split; [now left|].
  vm_compute. reflexivity.
Qed.

End AppFacts.

(** ** More on the Docker bootstrap *)

Module DockerMore.
Import JS Docker Inputs DockerFacts Specs.

(** *** The probe *)

Lemma getDockerStatus_run env w :
  getDockerStatus env w =
  if is_fail (execa_result env (calls w) "docker" ["--version"]) then
    (mkWorld (calls w + 1) (trace w ++ [AExec "docker" ["--version"]]),
     Ok (mkStatus false false false))
  else if is_fail (execa_result env (S (calls w)) "docker" ["ps"]) then
    (mkWorld (calls w + 2)
             (trace w ++ [AExec "docker" ["--version"]; AExec "docker" ["ps"]]),
     Ok (mkStatus true false false))
  else
    (mkWorld (calls w + 3) (trace w ++ probe_trace),
     Ok (mkStatus true true
           (image_listed (execa_result env (S (S (calls w))) "docker"
                                       ["images"; "-q"; sandbox_image])))).
Proof.
  unfold getDockerStatus.
  destruct (is_fail (execa_result env (calls w) "docker" ["--version"])) eqn:Hv.
  - rewrite (bind_ok _ _ _ _ _ _ (checkDockerInstalled_missing env w Hv)).
    cbn. unfold ret. do 2 f_equal. lia.
  - rewrite (bind_ok _ _ _ _ _ _ (checkDockerInstalled_ok env w Hv)).
    destruct (is_fail (execa_result env (S (calls w)) "docker" ["ps"])) eqn:Hp.
    + rewrite (bind_ok _ _ _ _ _ _
                 (checkDockerRunning_down env (mkWorld (S (calls w)) _) Hp)).
      cbn. unfold ret. rewrite <- app_assoc. do 2 f_equal. lia.
    + rewrite (bind_ok _ _ _ _ _ _
                 (checkDockerRunning_up env (mkWorld (S (calls w)) _) Hp)).
      rewrite (bind_ok _ _ _ _ _ _ (checkImageBuilt_run sandbox_image env _)).
      cbn. unfold ret. rewrite <- !app_assoc. do 2 f_equal. lia.
Qed.

(** X1.  [getDockerStatus] never throws.  It runs read-only queries
    only, one more for each field found true: the running query is made
    only when Docker is installed, the image query only when it runs.  A
    field is never true unless the one before it is. *)
Theorem getDockerStatus_short_circuits env w :
  exists status queries,
    getDockerStatus env w =
      (mkWorld (calls w + length queries) (trace w ++ queries), Ok status) /\
    queries = firstn (1 + Nat.b2n (installed status) + Nat.b2n (running status))
                     probe_trace /\
    implb (running status) (installed status) = true /\
    implb (imageBuilt status) (running status) = true.
Proof.
  rewrite getDockerStatus_run.
  destruct (is_fail (execa_result env (calls w) "docker" ["--version"]));
    [|destruct (is_fail (execa_result env (S (calls w)) "docker" ["ps"]))].
  - exists (mkStatus false false false), (firstn 1 probe_trace). now repeat split.
  - exists (mkStatus true false false), (firstn 2 probe_trace). now repeat split.
  - eexists (mkStatus true true _), probe_trace. repeat split.
    now destruct (image_listed _).
Qed.

Lemma checkImageBuilt_answer name env w :
  checkImageBuilt name env w =
  (mkWorld (S (calls w)) (trace w ++ [AExec "docker" ["images"; "-q"; name]]),
   Ok (image_listed (execa_result env (calls w) "docker" ["images"; "-q"; name]))).
Proof. apply checkImageBuilt_run. Qed.

(** *** The remediation procedures *)

(** X2.  [installDockerMac] by platform.  On an unsupported platform it
    throws the manual-install hint without running anything.  On macOS it
    asks for the version of Homebrew and installs the cask only if that
    succeeded; whichever of the two fails, the error is the same hint.  On
    Linux it fetches the install script and hands the fetched text to
    [sh -c]; a failure of either command is thrown as it is. *)
Theorem installDockerMac_by_platform env w :
  let brew := execa_result env (calls w) "brew" ["--version"] in
  let cask := execa_result env (S (calls w)) "brew" ["install"; "--cask"; "docker"] in
  let curl := execa_result env (calls w) "curl" ["-fsSL"; "https://get.docker.com"] in
  installDockerMac env w =
  match platform env with
  | OtherPlatform => (w, Throw install_hint)
  | Darwin =>
      match brew with
      | ExecFail _ =>
          (mkWorld (S (calls w)) (trace w ++ [AExec "brew" ["--version"]]),
           Throw install_hint)
      | ExecOk _ =>
          (mkWorld (S (S (calls w)))
                   (trace w ++ [AExec "brew" ["--version"];
                                AExec "brew" ["install"; "--cask"; "docker"]]),
           match cask with
           | ExecOk _ => Ok tt
           | ExecFail _ => Throw install_hint
           end)
      end
  | Linux =>
      match curl with
      | ExecFail msg =>
          (mkWorld (S (calls w))
                   (trace w ++ [AExec "curl" ["-fsSL"; "https://get.docker.com"]]),
           Throw msg)
      | ExecOk script =>
          (mkWorld (S (S (calls w)))
                   (trace w ++ [AExec "curl" ["-fsSL"; "https://get.docker.com"];
                                AExec "sh" ["-c"; script]]),
           match execa_result env (S (calls w)) "sh" ["-c"; script] with
           | ExecOk _ => Ok tt
           | ExecFail msg => Throw msg
           end)
      end
  end.
Proof.
  cbn zeta. destruct w as [c tr]. unfold installDockerMac, getPlatform.
  cbv beta iota delta [bind tryCatch execa ret throw calls trace].
  destruct (platform env); cbv beta iota.
  - destruct (execa_result env c "brew" ["--version"]); cbv beta iota zeta; [|reflexivity].
    destruct (execa_result env (S c) "brew" _); cbv beta iota zeta;
      now rewrite <- app_assoc.
  - destruct (execa_result env c "curl" _) as [script|]; cbv beta iota zeta; [|reflexivity].
    destruct (execa_result env (S c) "sh" _); cbv beta iota zeta;
      now rewrite <- app_assoc.
  - reflexivity.
Qed.

(** X3.  Without a start procedure there is no polling.  On a platform
    other than macOS, with Docker installed and the daemon down,
    [ensureDocker] fails at once with the request to start Docker by hand:
    it announces the start, runs no start command, never sleeps and never
    polls. *)
Theorem ensureDocker_cannot_start env w :
  platform env <> Darwin ->
  is_fail (execa_result env (calls w) "docker" ["--version"]) = false ->
  is_fail (execa_result env (S (calls w)) "docker" ["ps"]) = true ->
  ensureDocker env w =
  (mkWorld (calls w + 2)
           (trace w ++ [AExec "docker" ["--version"]; AExec "docker" ["ps"];
                        AProgress "Starting Docker..."]),
   Throw "Please start Docker manually").
Proof.
  intros Hos Hv Hp. unfold ensureDocker.
  assert (Hprobe := getDockerStatus_run env w). rewrite Hv, Hp in Hprobe.
  rewrite (bind_ok _ _ _ _ _ _ Hprobe).
  unfold installStage, startStage, startDockerDesktop, getPlatform.
  cbv beta iota delta [bind ret onProgress emit throw negb installed running calls trace].
  destruct (platform env); [contradiction| |]; cbv beta iota;
    now rewrite <- app_assoc.
Qed.

Lemma ensureDocker_cannot_start_witness :
  ensureDocker linux_down init_world =
  (mkWorld 2 [AExec "docker" ["--version"]; AExec "docker" ["ps"];
              AProgress "Starting Docker..."],
   Throw "Please start Docker manually").
Proof.
  apply (ensureDocker_cannot_start linux_down init_world).
  - discriminate.
  - reflexivity.
  - reflexivity.
Defined.


(** *** What a successful bootstrap returns *)

Lemma bind_inv_ok {A B} (m : M A) (k : A -> M B) env w w' b :
  bind m k env w = (w', Ok b) ->
  exists w1 a, m env w = (w1, Ok a) /\ k a env w1 = (w', Ok b).
Proof.
  unfold bind. destruct (m env w) as [w1 [a|msg]]; [|discriminate].
  intros H. now exists w1, a.
Qed.

Lemma pollRunning_result n : forall status env w w' r,
  pollRunning n status env w = (w', r) ->
  r = Ok status \/ r = Ok (set_running status).
Proof.
  induction n as [|n IH]; intros status env w w' r H.
  - cbn in H. injection H as _ <-. now left.
  - rewrite pollRunning_step in H.
    destruct (checkDockerRunning env (emit (ASleep 1000) w)) as [w1 [[|]|msg]] eqn:Hc.
    + injection H as _ <-. now right.
    + eapply IH; eassumption.
    + exfalso. unfold checkDockerRunning, tryCatch, bind, execa, ret in Hc.
      destruct (execa_result env _ _ _); discriminate.
Qed.

Lemma installStage_ok status env w w' s :
  installStage status env w = (w', Ok s) ->
  installed s = true /\ running s = running status /\ imageBuilt s = imageBuilt status.
Proof.
  unfold installStage. destruct (installed status) eqn:Hi; cbn [negb].
  - intros H. injection H as _ <-. auto.
  - intros H.
    apply bind_inv_ok in H as (w1 & [] & _ & H).
    apply bind_inv_ok in H as (w2 & [] & _ & H).
    apply bind_inv_ok in H as (w3 & [] & _ & H).
    injection H as _ <-. auto.
Qed.

Lemma startStage_ok status env w w' s :
  startStage status env w = (w', Ok s) ->
  running s = true /\ installed s = installed status /\ imageBuilt s = imageBuilt status.
Proof.
  unfold startStage. destruct (running status) eqn:Hr; cbn [negb].
  - intros H. injection H as _ <-. auto.
  - intros H.
    apply bind_inv_ok in H as (w1 & [] & _ & H).
    apply bind_inv_ok in H as (w2 & [] & _ & H).
    apply bind_inv_ok in H as (w3 & s3 & Hpoll & H).
    destruct (pollRunning_result _ _ _ _ _ _ Hpoll) as [E|E];
      injection E as ->.
    + rewrite Hr in H. discriminate.
    + cbn in H. injection H as _ <-. auto.
Qed.

Lemma buildStage_ok status env w w' s :
  buildStage status env w = (w', Ok s) ->
  imageBuilt s = true /\ installed s = installed status /\ running s = running status.
Proof.
  unfold buildStage. destruct (imageBuilt status) eqn:Hb; cbn [negb].
  - intros H. injection H as _ <-. auto.
  - intros H. apply bind_inv_ok in H as (w1 & [] & _ & H). injection H as _ <-. auto.
Qed.

Lemma ensureDocker_ok env w w' status :
  ensureDocker env w = (w', Ok status) -> status = ready.
Proof.
  unfold ensureDocker. intros H.
  apply bind_inv_ok in H as (w1 & s1 & _ & H).
  apply bind_inv_ok in H as (w2 & s2 & H2 & H).
  apply bind_inv_ok in H as (w3 & s3 & H3 & H).
  apply installStage_ok in H2 as (I2 & _ & _).
  apply startStage_ok in H3 as (R3 & I3 & _).
  apply buildStage_ok in H as (B & I & R).
  destruct status as [i r b]. cbn in *. unfold ready. congruence.
Qed.

(** X4.  [ensureDocker] returns a status only when the environment is
    fully ready: whenever it does not throw, the status it returns has
    [installed], [running] and [imageBuilt] all true. *)
Theorem ensureDocker_returns_ready env w w' status :
  ensureDocker env w = (w', Ok status) ->
  installed status = true /\ running status = true /\ imageBuilt status = true.
Proof. intros H. now rewrite (ensureDocker_ok _ _ _ _ H). Qed.

Lemma ensureDocker_returns_ready_witness :
  installed ready = true /\ running ready = true /\ imageBuilt ready = true.
Proof.
  apply (ensureDocker_returns_ready mac_up_later init_world
           (fst (ensureDocker mac_up_later init_world)) ready).
  vm_compute. reflexivity.
Defined.




(** *** Success away from macOS *)

Lemma startStage_unsupported status env w :
  platform env <> Darwin -> running status = false ->
  snd (startStage status env w) = Throw "Please start Docker manually".
Proof.
  intros Hos Hr. unfold startStage, startDockerDesktop, getPlatform. rewrite Hr.
  cbv beta iota delta [bind ret onProgress emit throw negb].
  now destruct (platform env).
Qed.

(** X6.  Away from macOS the bootstrap cannot bring the engine up:
    whenever [ensureDocker] succeeds there, the first two queries already
    found Docker installed and running. *)
Theorem ensureDocker_unsupported_success env w w' status :
  platform env <> Darwin ->
  ensureDocker env w = (w', Ok status) ->
  is_fail (execa_result env (calls w) "docker" ["--version"]) = false /\
  is_fail (execa_result env (S (calls w)) "docker" ["ps"]) = false.
Proof.
  intros Hos H. unfold ensureDocker in H.
  apply bind_inv_ok in H as (w1 & s1 & H1 & H).
  apply bind_inv_ok in H as (w2 & s2 & H2 & H).
  apply bind_inv_ok in H as (w3 & s3 & H3 & _).
  apply installStage_ok in H2 as (_ & R2 & _).
  destruct (running s2) eqn:Hr.
  - rewrite getDockerStatus_run in H1.
    destruct (is_fail (execa_result env (calls w) "docker" ["--version"])).
    + injection H1 as _ <-. cbn in R2. discriminate.
    + destruct (is_fail (execa_result env (S (calls w)) "docker" ["ps"])); [|easy].
      injection H1 as _ <-. cbn in R2. discriminate.
  - pose proof (startStage_unsupported s2 env w2 Hos Hr) as Hthrow.
    rewrite H3 in Hthrow. discriminate.
Qed.

Lemma ensureDocker_unsupported_success_witness :
  is_fail (execa_result all_ready 0 "docker" ["--version"]) = false /\
  is_fail (execa_result all_ready 1 "docker" ["ps"]) = false.
Proof.
  apply (ensureDocker_unsupported_success all_ready init_world
           (mkWorld 3 probe_trace) ready).
  - discriminate.
  - vm_compute. reflexivity.
Defined.

(** *** How long the bootstrap can take *)


Lemma sleeps_app l1 l2 : sleeps (l1 ++ l2) = sleeps l1 + sleeps l2.
Proof. unfold sleeps. now rewrite List.filter_app, length_app. Qed.

Lemma slept_app l1 l2 : slept (l1 ++ l2) = slept l1 + slept l2.
Proof.
  unfold slept. induction l1 as [|a l1 IH]; [reflexivity|].
  cbn [app fold_right]. destruct a; rewrite ?IH; lia.
Qed.

Lemma within_ret {A} (a : A) : within 0 0 (ret a).
Proof. intros env w. cbn. lia. Qed.

Lemma within_throw {A} msg : within 0 0 (@throw A msg).
Proof. intros env w. cbn. lia. Qed.

Lemma within_getPlatform : within 0 0 getPlatform.
Proof. intros env w. cbn. lia. Qed.

Lemma within_onProgress msg : within 0 0 (onProgress msg).
Proof.
  intros env w. unfold onProgress, emit. cbn [fst calls trace].
  rewrite sleeps_app, slept_app. cbn. lia.
Qed.

Lemma within_sleep : within 0 1 (sleep 1000).
Proof.
  intros env w. unfold sleep, emit. cbn [fst calls trace].
  rewrite sleeps_app, slept_app.
  change (sleeps [ASleep 1000]) with 1. change (slept [ASleep 1000]) with (1000 + 0). lia.
Qed.

Lemma within_execa file args : within 1 0 (execa file args).
Proof.
  intros env w. unfold execa.
  destruct (execa_result env (calls w) file args); cbn [fst calls trace];
    rewrite sleeps_app, slept_app; cbn; lia.
Qed.

Lemma within_weaken c s c' s' {A} (m : M A) :
  c <= c' -> s <= s' -> within c s m -> within c' s' m.
Proof. intros Hc Hs H env w. destruct (H env w) as (H1 & H2 & H3). lia. Qed.

Lemma within_bind c1 s1 c2 s2 {A B} (m : M A) (k : A -> M B) :
  within c1 s1 m -> (forall a, within c2 s2 (k a)) -> within (c1 + c2) (s1 + s2) (bind m k).
Proof.
  intros Hm Hk env w. unfold bind. destruct (Hm env w) as (H1 & H2 & H3).
  destruct (m env w) as [w1 [a|msg]]; cbn in *.
  - destruct (Hk a env w1) as (K1 & K2 & K3). lia.
  - lia.
Qed.

Lemma within_tryCatch c1 s1 c2 s2 {A} (m : M A) (h : string -> M A) :
  within c1 s1 m -> (forall msg, within c2 s2 (h msg)) ->
  within (c1 + c2) (s1 + s2) (tryCatch m h).
Proof.
  intros Hm Hh env w. unfold tryCatch. destruct (Hm env w) as (H1 & H2 & H3).
  destruct (m env w) as [w1 [a|msg]]; cbn in *.
  - lia.
  - destruct (Hh msg env w1) as (K1 & K2 & K3). lia.
Qed.

Lemma within_check file args : within 1 0
  (tryCatch (execa file args ;;; ret true) (fun _ => ret false)).
Proof.
  apply (within_tryCatch 1 0 0 0); [|intros; apply within_ret].
  apply (within_bind 1 0 0 0); [apply within_execa | intros; apply within_ret].
Qed.

Lemma within_getDockerStatus : within 3 0 getDockerStatus.
Proof.
  unfold getDockerStatus.
  apply (within_bind 1 0 2 0); [apply within_check | intros i].
  apply (within_bind 1 0 1 0).
  { destruct i; [apply within_check | apply (within_weaken 0 0); [lia..|apply within_ret]]. }
  intros r. apply (within_bind 1 0 0 0); [|intros; apply within_ret].
  destruct r; [|apply (within_weaken 0 0); [lia..|apply within_ret]].
  unfold checkImageBuilt. apply (within_tryCatch 1 0 0 0); [|intros; apply within_ret].
  apply (within_bind 1 0 0 0); [apply within_execa | intros; apply within_ret].
Qed.

Lemma within_installDockerMac : within 2 0 installDockerMac.
Proof.
  unfold installDockerMac.
  apply (within_bind 0 0 2 0); [apply within_getPlatform | intros os].
  destruct os.
  - apply (within_tryCatch 2 0 0 0); [|intros; apply within_throw].
    apply (within_bind 1 0 1 0); [apply within_execa | intros _].
    apply (within_bind 1 0 0 0); [apply within_execa | intros; apply within_ret].
  - apply (within_bind 1 0 1 0); [apply within_execa | intros script].
    apply (within_bind 1 0 0 0); [apply within_execa | intros; apply within_ret].
  - apply (within_weaken 0 0); [lia..|apply within_throw].
Qed.

Lemma within_installStage status : within 2 0 (installStage status).
Proof.
  unfold installStage.
  destruct (negb (installed status)); [|apply (within_weaken 0 0); [lia..|apply within_ret]].
  apply (within_bind 0 0 2 0); [apply within_onProgress | intros _].
  apply (within_bind 2 0 0 0); [apply within_installDockerMac | intros _].
  apply (within_bind 0 0 0 0); [apply within_onProgress | intros; apply within_ret].
Qed.

Lemma within_pollRunning n status : within n n (pollRunning n status).
Proof.
  induction n as [|n IH]; [apply within_ret|]. cbn [pollRunning].
  apply (within_bind 0 1 (S n) n); [apply within_sleep | intros _].
  apply (within_bind 1 0 n n); [apply within_check | intros up].
  destruct up; [apply (within_weaken 0 0); [lia..|apply within_ret] | exact IH].
Qed.

Lemma within_startStage status : within 31 30 (startStage status).
Proof.
  unfold startStage.
  destruct (negb (running status)); [|apply (within_weaken 0 0); [lia..|apply within_ret]].
  apply (within_bind 0 0 31 30); [apply within_onProgress | intros _].
  apply (within_bind 1 0 30 30).
  { unfold startDockerDesktop.
    apply (within_bind 0 0 1 0); [apply within_getPlatform | intros os].
    destruct os; try (apply (within_weaken 0 0); [lia..|apply within_throw]).
    apply (within_bind 1 0 0 0); [apply within_execa | intros; apply within_ret]. }
  intros _. apply (within_bind 30 30 0 0); [apply within_pollRunning | intros s].
  destruct (negb (running s)); [apply within_throw|].
  apply (within_bind 0 0 0 0); [apply within_onProgress | intros; apply within_ret].
Qed.

Lemma within_buildStage status : within 1 0 (buildStage status).
Proof.
  unfold buildStage, buildSandboxImage.
  destruct (negb (imageBuilt status)); [|apply (within_weaken 0 0); [lia..|apply within_ret]].
  apply (within_bind 1 0 0 0); [|intros; apply within_ret].
  apply (within_tryCatch 1 0 0 0); [|intros; apply within_throw].
  apply (within_bind 0 0 1 0); [apply within_onProgress | intros _].
  apply (within_bind 1 0 0 0); [apply within_execa | intros; apply within_onProgress].
Qed.

(** X7.  The bootstrap is bounded.  In every environment a call of
    [ensureDocker] runs at most 37 commands and sleeps at most 30 times,
    30 seconds in all: the polling of the start stage is the only
    wait. *)
Theorem ensureDocker_bounded env w :
  calls (fst (ensureDocker env w)) <= calls w + 37 /\
  sleeps (trace (fst (ensureDocker env w))) <= sleeps (trace w) + 30 /\
  slept (trace (fst (ensureDocker env w))) <= slept (trace w) + 1000 * 30.
Proof.
  assert (H : within 37 30 ensureDocker).
  { unfold ensureDocker.
    apply (within_bind 3 0 34 30); [apply within_getDockerStatus | intros s1].
    apply (within_bind 2 0 32 30); [apply within_installStage | intros s2].
    apply (within_bind 31 30 1 0); [apply within_startStage | intros s3].
    apply within_buildStage. }
  apply H.
Qed.

End DockerMore.

(** ** More on the bridge: every schedule *)

Module BridgeMore.
Import JS Json Bridge Inputs BridgeFacts Specs.

Section WithParser.

Variable JSON_parse : string -> option JSValue.
Variable nullStdout : JSError.

Lemma stop_delivered b : delivered (effects (stop b)) = delivered (effects b).
Proof.
  unfold stop. destruct (process b); cbn; [|reflexivity].
  rewrite delivered_app. cbn. now rewrite app_nil_r.
Qed.

Lemma stop_phase b : phase (stop b) = phase b.
Proof. unfold stop. now destruct (process b). Qed.

(** At [await this.process]: the first settlement decides. *)
Lemma run_awaiting ticks : forall b,
  phase b = Awaiting ->
  delivered (effects (run JSON_parse nullStdout b ticks)) =
  delivered (effects b) ++ match firstSettle ticks with
                           | Some outcome => synthesized outcome
                           | None => []
                           end.
Proof.
  induction ticks as [|t ticks IH]; intros b Hph.
  - cbn. now rewrite app_nil_r.
  - rewrite run_cons. destruct t as [|line| |outcome|]; cbn [step firstSettle]; rewrite ?Hph.
    + now apply IH.
    + now apply IH.
    + now apply IH.
    + destruct outcome as [|error].
      * destruct (run_returned JSON_parse nullStdout ticks (set_phase Returned b) eq_refl) as [_ ->].
        cbn. now rewrite app_nil_r.
      * destruct (run_returned JSON_parse nullStdout ticks
                    (set_phase Returned (perform (OnEvent (errorEvent error)) b)) eq_refl)
          as [_ ->].
        cbn. now rewrite delivered_app.
    + rewrite IH; [|now rewrite stop_phase]. now rewrite stop_delivered.
Qed.


Lemma run_reading ticks : forall b,
  phase b = Reading ->
  delivered (effects (run JSON_parse nullStdout b ticks)) =
  delivered (effects b) ++ lineEvents JSON_parse (readLines ticks)
  ++ (if cleared b then [] else scheduledError ticks).
Proof.
  induction ticks as [|t ticks IH]; intros b Hph.
  - cbn. destruct (cleared b); now rewrite app_nil_r.
  - rewrite run_cons. destruct t as [|line| |outcome|].
    + cbn [step readLines]. rewrite Hph. now apply IH.
    + assert (Hstep : step JSON_parse nullStdout b (Line line) = onLine JSON_parse line b)
        by (cbn; now rewrite Hph).
      rewrite Hstep. destruct (onLine_state JSON_parse line b) as [Hp Hq].
      rewrite IH; [|now rewrite Hq]. rewrite onLine_delivered. cbn [readLines].
      rewrite (lineEvents_cons JSON_parse line (readLines ticks)), <- !app_assoc.
      unfold cleared. rewrite Hp. reflexivity.
    + cbn [step readLines]. rewrite Hph. unfold cleared, scheduledError.
      cbn [afterClose stoppedBeforeClose]. destruct (process b).
      * now rewrite (run_awaiting ticks (set_phase Awaiting b) eq_refl).
      * destruct (run_returned JSON_parse nullStdout ticks (set_phase Returned b) eq_refl) as [_ ->].
        cbn. now rewrite app_nil_r.
    + cbn [step readLines]. rewrite Hph. now apply IH.
    + cbn [step readLines]. rewrite IH; [|now rewrite stop_phase].
      rewrite stop_delivered. unfold cleared at 1. rewrite stop_clears.
      unfold scheduledError. cbn [afterClose stoppedBeforeClose].
      destruct (cleared b); [reflexivity|]. now destruct (afterClose ticks).
Qed.

(** At the import of [readline]: a handle cleared in the meantime
    makes the next statement throw. *)
Lemma run_importing ticks : forall b,
  phase b = Importing ->
  delivered (effects (run JSON_parse nullStdout b ticks)) =
  delivered (effects b)
  ++ match afterImport ticks with
     | None => []
     | Some rest =>
         if cleared b || stoppedBeforeImport ticks then [errorEvent nullStdout]
         else lineEvents JSON_parse (readLines rest) ++ scheduledError rest
     end.
Proof.
  induction ticks as [|t ticks IH]; intros b Hph.
  - cbn. now rewrite app_nil_r.
  - rewrite run_cons. destruct t as [|line| |outcome|];
      cbn [step afterImport stoppedBeforeImport]; rewrite ?Hph.
    + unfold cleared. destruct (process b) eqn:Hpr; cbn [orb].
      * rewrite (run_reading ticks (set_phase Reading b) eq_refl).
        unfold cleared. cbn [set_phase process effects]. now rewrite Hpr.
      * destruct (run_returned JSON_parse nullStdout ticks
                    (set_phase Returned (perform (OnEvent (errorEvent nullStdout)) b))
                    eq_refl) as [_ ->].
        cbn. now rewrite delivered_app.
    + now apply IH.
    + now apply IH.
    + now apply IH.
    + rewrite IH; [|now rewrite stop_phase]. rewrite stop_delivered.
      unfold cleared at 1. rewrite stop_clears. cbn [orb]. now rewrite orb_true_r.
Qed.

(** The kills so far and the handle still held add up to a constant. *)
Lemma step_kills b t :
  kills (effects (step JSON_parse nullStdout b t)) + (if cleared (step JSON_parse nullStdout b t) then 0 else 1) =
  kills (effects b) + (if cleared b then 0 else 1).
Proof.
  assert (Hperf : forall e b0, kills (effects (perform (OnEvent e) b0)) = kills (effects b0)).
  { intros e b0. unfold kills. cbn. rewrite List.filter_app, length_app. cbn. lia. }
  destruct t as [|line| |outcome|]; cbn [step].
  - unfold cleared. destruct (phase b); try reflexivity.
    destruct (process b) eqn:E; cbn [set_phase perform effects process]; rewrite ?E.
    + reflexivity.
    + specialize (Hperf (errorEvent nullStdout) b). cbn [perform effects] in Hperf.
      now rewrite Hperf.
  - destruct (phase b); try reflexivity. unfold onLine.
    destruct (String.eqb (trim line) ""); [reflexivity|].
    destruct (JSON_parse line); [|reflexivity]. now rewrite Hperf.
  - destruct (phase b); try reflexivity. now destruct (process b).
  - destruct (phase b); try reflexivity. destruct outcome; [reflexivity|].
    unfold set_phase, cleared. cbn [effects process]. now rewrite Hperf.
  - unfold stop, cleared, kills. destruct (process b) eqn:E; cbn [process effects].
    + rewrite List.filter_app, length_app. cbn. lia.
    + now rewrite E.
Qed.

Lemma run_kills ticks : forall b,
  kills (effects (run JSON_parse nullStdout b ticks)) + (if cleared (run JSON_parse nullStdout b ticks) then 0 else 1)
  = kills (effects b) + (if cleared b then 0 else 1).
Proof.
  induction ticks as [|t ticks IH]; intros b; [reflexivity|].
  rewrite run_cons, IH. apply step_kills.
Qed.

Lemma step_cleared b t : cleared (step JSON_parse nullStdout b t) = cleared b || isStopCall t.
Proof.
  destruct t as [|line| |outcome|]; cbn [step isStopCall]; rewrite ?orb_false_r.
  - destruct (phase b); try reflexivity. now destruct (process b).
  - destruct (phase b); try reflexivity. unfold cleared.
    now destruct (onLine_state JSON_parse line b) as [-> _].
  - destruct (phase b); try reflexivity. now destruct (process b).
  - destruct (phase b); try reflexivity. now destruct outcome.
  - unfold cleared. rewrite stop_clears. now rewrite orb_true_r.
Qed.

Lemma run_cleared_iff ticks : forall b,
  cleared (run JSON_parse nullStdout b ticks) = cleared b || existsb isStopCall ticks.
Proof.
  induction ticks as [|t ticks IH]; intros b; [cbn; now rewrite orb_false_r|].
  rewrite run_cons, IH, step_cleared. cbn [existsb]. now rewrite orb_assoc.
Qed.

End WithParser.

(** X8.  Every schedule.  Whatever the interleaving of the import,
    lines, end of output, settlements and calls of [stop], a run of
    [startScan] hands nothing to [onEvent] before the import has resolved.
    If [stop] was called before that, the next statement fails on the
    [null] handle: the only event is the error of that TypeError and no
    line is read.  Otherwise the events are those of the lines read before
    the output ends, in order, followed by at most one synthesized error,
    which appears exactly when the output ended before any [stop] and the
    first settlement after it is a rejection. *)
Theorem startScan_every_schedule JSON_parse nullStdout config ticks :
  delivered (effects (run JSON_parse nullStdout (startScan config fresh) ticks)) =
    match afterImport ticks with
    | None => []
    | Some rest =>
        if stoppedBeforeImport ticks then [errorEvent nullStdout]
        else lineEvents JSON_parse (readLines rest) ++ scheduledError rest
    end /\
  (forall rest, length (scheduledError rest) <= 1).
Proof.
  split.
  - now rewrite (run_importing JSON_parse nullStdout ticks (startScan config fresh) eq_refl).
  - intros rest. unfold scheduledError. destruct (afterClose rest) as [rest'|]; [|cbn; lia].
    destruct (stoppedBeforeClose rest); [cbn; lia|].
    destruct (firstSettle rest') as [[|error]|]; cbn; lia.
Qed.

(** A stop before the import has resolved: the lines that follow are
    never read, and the consumer gets the error of the TypeError. *)
Example stop_before_import :
  delivered (effects (run JSON_parse null_stdout (startScan example_config fresh)
                          [StopCall; Imported; Line progress_line; Close;
                           Settle (Rejected killed)])) =
  [errorEvent null_stdout] /\
  delivered (effects (run JSON_parse null_stdout (startScan example_config fresh)
                          [StopCall])) = [].
Proof. split; vm_compute; reflexivity. Qed.

(** X9.  The process is killed at most once: in every schedule the
    number of kills is one if [stop] was called at least once and zero
    otherwise, and the handle is cleared exactly in the first case. *)
Theorem startScan_kills_once JSON_parse nullStdout config ticks :
  let b := run JSON_parse nullStdout (startScan config fresh) ticks in
  kills (effects b) = (if existsb isStopCall ticks then 1 else 0) /\
  process b = (if existsb isStopCall ticks then None else Some python3).
Proof.
  cbn zeta.
  pose proof (run_kills JSON_parse nullStdout ticks (startScan config fresh)) as Hk.
  pose proof (run_cleared_iff JSON_parse nullStdout ticks (startScan config fresh)) as Hc.
  cbn [cleared startScan process orb] in Hc. unfold cleared in Hk at 2.
  cbn [startScan process effects] in Hk.
  replace (kills (effects fresh ++ [Spawn; StdinWrite (config_line config)])) with 0 in Hk
    by reflexivity.
  unfold cleared in Hk, Hc.
  destruct (process (run JSON_parse nullStdout (startScan config fresh) ticks)) as [[]|];
    rewrite <- Hc; split; (reflexivity || lia).
Qed.

End BridgeMore.

(** ** More on the display *)

Module DisplayMore.
Import JS Json Bridge ScanDisplay Types Inputs BridgeFacts DisplayFacts Specs.

(** *** What the history holds *)


Lemma keysOf_app l1 l2 : keysOf (l1 ++ l2) = keysOf l1 ++ keysOf l2.
Proof. unfold keysOf. apply omap_app. Qed.

Lemma consistent_initial : consistent initial.
Proof. repeat split. constructor. Qed.

Lemma consistent_deliver st event : consistent st -> consistent (deliver st event).
Proof.
  intros (Hnd & Hlog & Hlen). unfold deliver, onEvent.
  destruct (dedupKey event) as [key|] eqn:Hk; [|easy].
  unfold consistent. rewrite finish_events, finish_logsRef.
  unfold record. case_decide as Hin; [easy|]. cbn [events logsRef].
  assert (Hkeys : keysOf (events st ++ [event]) = keysOf (events st) ++ [key]).
  { rewrite keysOf_app. unfold keysOf at 2. cbn. now rewrite Hk. }
  rewrite Hkeys. repeat split.
  - apply NoDup_app. repeat split; [exact Hnd | | apply NoDup_singleton].
    intros k Hk1 Hk2. apply list_elem_of_singleton in Hk2. subst k.
    apply Hin. rewrite Hlog. now apply elem_of_list_to_set.
  - rewrite list_to_set_app_L, Hlog. cbn [list_to_set foldr].
    rewrite (right_id_L ∅ (∪)). apply (comm_L (∪)).
  - rewrite !length_app, Hlen. reflexivity.
Qed.

Lemma consistent_fold evs : forall st,
  consistent st -> consistent (fold_left deliver evs st).
Proof.
  induction evs as [|e evs IH]; intros st H; [exact H|].
  cbn. apply IH. now apply consistent_deliver.
Qed.

Lemma deliver_events st event :
  events (deliver st event) = events st \/ events (deliver st event) = events st ++ [event].
Proof.
  unfold deliver, onEvent. destruct (dedupKey event); [|now left].
  rewrite finish_events. unfold record. case_decide; [now left | now right].
Qed.

Lemma fold_events evs : forall st,
  exists added, events (fold_left deliver evs st) = events st ++ added /\ sublist added evs.
Proof.
  induction evs as [|e evs IH]; intros st.
  - exists []. cbn. now rewrite app_nil_r.
  - cbn. destruct (IH (deliver st e)) as (added & E & S).
    destruct (deliver_events st e) as [H|H]; rewrite H in E.
    + exists added. split; [exact E | now constructor].
    + exists (e :: added). rewrite <- app_assoc in E. split; [exact E | now constructor].
Qed.

(** X10.  The history of a session, whatever events are delivered to
    it: the recorded events are delivered events in their order of
    arrival; each of them has a key; no two of them have the same key; and
    the set of seen keys is exactly the set of their keys. *)
Theorem history_has_distinct_keys evs :
  let st := fold_left deliver evs initial in
  sublist (events st) evs /\
  NoDup (keysOf (events st)) /\
  length (keysOf (events st)) = length (events st) /\
  logsRef st = list_to_set (keysOf (events st)).
Proof.
  cbn zeta. destruct (consistent_fold evs initial consistent_initial) as (H1 & H2 & H3).
  destruct (fold_events evs initial) as (added & E & S). cbn in E.
  repeat split; auto. now rewrite E.
Qed.

(** *** Completion *)

Lemma deliver_isComplete st event :
  isComplete (deliver st event) = isComplete st || (accepted event && isTerminal event).
Proof.
  unfold deliver, onEvent, accepted. destruct (dedupKey event) as [key|] eqn:Hk.
  - rewrite finish_isComplete. unfold record. now case_decide.
  - now rewrite orb_false_r.
Qed.

Lemma deliver_timers st event :
  completeTimers (deliver st event) =
  completeTimers st + Nat.b2n (accepted event && typeIs "complete" event).
Proof.
  unfold deliver, onEvent, accepted. destruct (dedupKey event) as [key|] eqn:Hk.
  - assert (Hrec : completeTimers (record key event st) = completeTimers st)
      by (unfold record; now case_decide).
    unfold finish. destruct (typeIs "complete" event); cbn [orb andb completeTimers Nat.b2n].
    + lia.
    + destruct (typeIs "error" event); cbn [completeTimers]; lia.
  - cbn. lia.
Qed.

Lemma fold_isComplete evs : forall st,
  isComplete (fold_left deliver evs st) =
  isComplete st || existsb (fun e => accepted e && isTerminal e) evs.
Proof.
  induction evs as [|e evs IH]; intros st; cbn; [now rewrite orb_false_r|].
  now rewrite IH, deliver_isComplete, orb_assoc.
Qed.

Lemma fold_timers evs : forall st,
  completeTimers (fold_left deliver evs st) = completeTimers st + completes evs.
Proof.
  induction evs as [|e evs IH]; intros st; [cbn; lia|].
  cbn [fold_left]. rewrite IH, deliver_timers. unfold completes. cbn [List.filter].
  destruct (accepted e && typeIs "complete" e); cbn; lia.
Qed.

(** X11.  Completion is not deduplicated.  After any deliveries,
    [isComplete] holds exactly when the handler ran to its end on a
    terminal event, and one [onComplete] timer was scheduled for every
    [complete] event it ran on -- a repeated [complete] event, though
    recorded once, schedules the callback again; an [error] event
    schedules none. *)
Theorem completion_counts_every_complete evs :
  let st := fold_left deliver evs initial in
  isComplete st = existsb (fun e => accepted e && isTerminal e) evs /\
  completeTimers st = completes evs.
Proof. cbn zeta. now rewrite fold_isComplete, fold_timers. Qed.

(** *** The display and its bridge *)

Section WithParser.

Variable JSON_parse : string -> option JSValue.
Variable nullStdout : JSError.

Lemma step_extends b t : exists l, effects (step JSON_parse nullStdout b t) = effects b ++ l.
Proof.
  destruct t as [|line| |outcome|]; cbn [step].
  - destruct (phase b); try (exists []; now rewrite app_nil_r).
    destruct (process b); [exists []; now rewrite app_nil_r|].
    now exists [OnEvent (errorEvent nullStdout)].
  - destruct (phase b); try (exists []; now rewrite app_nil_r). unfold onLine.
    destruct (String.eqb (trim line) ""); [exists []; now rewrite app_nil_r|].
    destruct (JSON_parse line) as [e|]; [now exists [OnEvent e] | exists []; now rewrite app_nil_r].
  - destruct (phase b); try (exists []; now rewrite app_nil_r).
    destruct (process b); exists []; now rewrite app_nil_r.
  - destruct (phase b); try (exists []; now rewrite app_nil_r).
    destruct outcome as [|error]; [exists []; now rewrite app_nil_r|].
    now exists [OnEvent (errorEvent error)].
  - unfold stop. destruct (process b); [now exists [Kill] | exists []; now rewrite app_nil_r].
Qed.

Lemma tick_display s t :
  display s = fold_left deliver (delivered (effects (bridge s))) initial ->
  display (tick JSON_parse nullStdout s t) =
  fold_left deliver (delivered (effects (bridge (tick JSON_parse nullStdout s t)))) initial.
Proof.
  intros H. unfold tick. cbn [display bridge].
  destruct (step_extends (bridge s) t) as (l & ->).
  rewrite skipn_app, skipn_all, Nat.sub_diag. cbn [app skipn].
  unfold consume. rewrite delivered_app, fold_left_app. now rewrite H.
Qed.

Lemma play_bridge ticks : forall s,
  bridge (play JSON_parse nullStdout s ticks) = run JSON_parse nullStdout (bridge s) ticks.
Proof.
  induction ticks as [|t ticks IH]; intros s; [reflexivity|].
  change (play JSON_parse nullStdout s (t :: ticks)) with (play JSON_parse nullStdout (tick JSON_parse nullStdout s t) ticks).
  now rewrite IH.
Qed.

Lemma play_display ticks : forall s,
  display s = fold_left deliver (delivered (effects (bridge s))) initial ->
  display (play JSON_parse nullStdout s ticks) =
  fold_left deliver (delivered (effects (bridge (play JSON_parse nullStdout s ticks)))) initial.
Proof.
  induction ticks as [|t ticks IH]; intros s H; [exact H|].
  change (play JSON_parse nullStdout s (t :: ticks)) with (play JSON_parse nullStdout (tick JSON_parse nullStdout s t) ticks).
  apply IH. now apply tick_display.
Qed.

End WithParser.

(** X12.  A session from mount on.  In every schedule the state of the
    display is the one obtained by feeding the handler, from the initial
    state, the events its bridge delivered.  For a run that nobody stops,
    [isComplete] ends up set exactly when a line carried a terminal event
    the handler ran on or the process failed, and the timers for [onComplete] count the
    [complete] lines only: a process that exits normally without a
    terminal line leaves the session incomplete, and a process that fails
    completes it without ever scheduling [onComplete]. *)
Theorem session_follows_bridge JSON_parse nullStdout config ticks lines outcome :
  display (play JSON_parse nullStdout (mount config) ticks) =
    fold_left deliver
      (delivered (effects (run JSON_parse nullStdout (startScan config fresh) ticks))) initial /\
  let st := display (play JSON_parse nullStdout (mount config) (unstopped lines outcome)) in
  isComplete st =
    existsb (fun e => accepted e && isTerminal e) (lineEvents JSON_parse lines)
    || match outcome with Rejected _ => true | Fulfilled => false end /\
  completeTimers st = completes (lineEvents JSON_parse lines).
Proof.
  assert (Hplay : forall tk,
    display (play JSON_parse nullStdout (mount config) tk) =
    fold_left deliver
      (delivered (effects (run JSON_parse nullStdout (startScan config fresh) tk))) initial).
  { intros tk. rewrite (play_display JSON_parse nullStdout tk (mount config) eq_refl).
    now rewrite play_bridge. }
  split; [apply Hplay|]. cbn zeta. rewrite Hplay, unstopped_delivered.
  rewrite fold_isComplete, fold_timers. cbn [isComplete completeTimers initial orb].
  rewrite existsb_app. unfold completes. rewrite List.filter_app, length_app.
  destruct outcome as [|error]; cbn; split; (reflexivity || lia).
Qed.

(** *** Rendering *)

(** X13.  Events of type [agent_action] pass the filter of the log, so
    they take places among the 15 entries shown, but [LogEntry] renders
    nothing for them. *)
Theorem agent_action_is_listed_not_rendered event :
  typeIs "agent_action" event = true ->
  isLogEvent event = true /\ LogEntry event = None.
Proof.
  intros H. split.
  - unfold isLogEvent. rewrite H. now rewrite !orb_true_r.
  - unfold LogEntry.
    rewrite (typeIs_exclusive "agent_action" "progress" event), 
            (typeIs_exclusive "agent_action" "vulnerability" event),
            (typeIs_exclusive "agent_action" "error" event); auto; discriminate.
Qed.

Lemma agent_action_is_listed_not_rendered_witness :
  let e := AgentActionEvent "sandbox" "run_command" (Some "curl -I example.com") None 7 in
  isLogEvent e = true /\ LogEntry e = None.
Proof.
  exact (agent_action_is_listed_not_rendered
           (AgentActionEvent "sandbox" "run_command" (Some "curl -I example.com") None 7)
           eq_refl).
Defined.

End DisplayMore.

(** ** More on the screens *)

Module AppMore.
Import JS Json Docker Bridge Inputs Specs.

(** *** [TargetInput] *)

Lemma feed_cons i rest st :
  snd (TargetInput.feed (i :: rest) st) =
  match snd (TargetInput.handle i st) with
  | Some c => c :: snd (TargetInput.feed rest (fst (TargetInput.handle i st)))
  | None => snd (TargetInput.feed rest (fst (TargetInput.handle i st)))
  end.
Proof.
  cbn [TargetInput.feed]. destruct (TargetInput.handle i st) as [st1 out].
  cbn [fst snd]. now destruct (TargetInput.feed rest st1).
Qed.

(** On the objective field: a change hands nothing over, a submission
    hands over the configuration for the target on record; the target and
    the field on screen stay. *)
Lemma handle_objective i st :
  TargetInput.step st = TargetInput.StepObjective ->
  TargetInput.step (fst (TargetInput.handle i st)) = TargetInput.StepObjective /\
  TargetInput.target (fst (TargetInput.handle i st)) = TargetInput.target st /\
  snd (TargetInput.handle i st) =
  match i with
  | TargetInput.Change _ => None
  | TargetInput.Submit v => Some (TargetInput.configFor (TargetInput.target st) v)
  end.
Proof.
  intros Hst. unfold TargetInput.handle. rewrite Hst. destruct i as [v|v]; cbn.
  - split; [first [reflexivity | exact Hst]|]. now split.
  - split; [first [reflexivity | exact Hst]|]. now split.
Qed.

(** On the target field nothing is handed over; a submission records
    the target and moves to the objective field. *)
Lemma handle_target i st :
  TargetInput.step st = TargetInput.StepTarget ->
  snd (TargetInput.handle i st) = None /\
  match i with
  | TargetInput.Change _ =>
      TargetInput.step (fst (TargetInput.handle i st)) = TargetInput.StepTarget
  | TargetInput.Submit v =>
      TargetInput.step (fst (TargetInput.handle i st)) = TargetInput.StepObjective /\
      TargetInput.target (fst (TargetInput.handle i st)) = v
  end.
Proof.
  intros Hst. unfold TargetInput.handle. rewrite Hst. destruct i; cbn; auto.
Qed.

Lemma feed_objective inputs : forall st,
  TargetInput.step st = TargetInput.StepObjective ->
  snd (TargetInput.feed inputs st) =
  map (TargetInput.configFor (TargetInput.target st)) (TargetInput.submitted inputs).
Proof.
  induction inputs as [|i inputs IH]; intros st Hst; [reflexivity|].
  rewrite feed_cons. destruct (handle_objective i st Hst) as (H1 & H2 & H3).
  rewrite H3, (IH _ H1), H2. now destruct i.
Qed.

Lemma feed_target inputs : forall st,
  TargetInput.step st = TargetInput.StepTarget ->
  snd (TargetInput.feed inputs st) =
  match TargetInput.submitted inputs with
  | [] => []
  | t :: later => map (TargetInput.configFor t) later
  end.
Proof.
  induction inputs as [|i inputs IH]; intros st Hst; [reflexivity|].
  rewrite feed_cons. destruct (handle_target i st Hst) as [-> H].
  destruct i as [v|v]; cbn [TargetInput.submitted].
  - now apply IH.
  - destruct H as [H1 H2]. now rewrite (feed_objective inputs _ H1), H2.
Qed.

Lemma configFor_objective t v : objective (TargetInput.configFor t v) <> Some "".
Proof.
  unfold TargetInput.configFor, orUndefined. cbn.
  destruct (String.eqb_spec v ""); [discriminate | congruence].
Qed.

(** X14.  The configurations [TargetInput] submits.  Whatever the user
    types and submits, the first submission hands nothing to [onSubmit],
    and every later submission hands over exactly one configuration, in
    order: its target is the first value that was submitted, its
    objective is the value of that submission, unset when it is empty,
    and it has no provider and no model.  No configuration handed over has
    the empty string as objective. *)
Theorem TargetInput_submits inputs :
  snd (TargetInput.feed inputs TargetInput.initial) =
    match TargetInput.submitted inputs with
    | [] => []
    | t :: later => map (fun v => mkConfig t (orUndefined v) None None) later
    end /\
  Forall (fun c => objective c <> Some "")
         (snd (TargetInput.feed inputs TargetInput.initial)).
Proof.
  rewrite (feed_target inputs TargetInput.initial eq_refl). split; [reflexivity|].
  destruct (TargetInput.submitted inputs) as [|t later]; [constructor|].
  apply Forall_forall. intros c Hc. apply list_elem_of_In, in_map_iff in Hc.
  destruct Hc as (v & <- & _). apply configFor_objective.
Qed.

(** *** [DockerCheck] and [App] *)


Lemma handle_keeps_error e st c rest :
  App.clearsError e = false ->
  App.error st = Some (String c rest) ->
  exists c' rest', App.error (App.handle st e) = Some (String c' rest').
Proof.
  intros He Hst. destruct e as [|msg| |]; cbn; eauto.
  destruct msg as [|c' rest']; [discriminate | eauto].
Qed.

(** X16.  The error view is final.  Once a non-empty error is set,
    [App] renders the error view after any further callbacks -- ready,
    submit, complete, or another non-empty error: no callback resets the
    error. *)
Theorem error_view_is_final evs : forall st msg,
  msg <> "" ->
  forallb (fun e => negb (App.clearsError e)) evs = true ->
  exists shown, App.render (fold_left App.handle evs (App.onError msg st))
                = App.VError shown /\ shown <> "".
Proof.
  intros st msg Hmsg Hevs.
  assert (H : forall s c rest, App.error s = Some (String c rest) ->
            exists c' rest', App.error (fold_left App.handle evs s) = Some (String c' rest')).
  { clear st msg Hmsg. induction evs as [|e evs IH]; intros s c rest Hs; [cbn; eauto|].
    cbn in Hevs. apply andb_prop in Hevs as [He Hrest].
    apply negb_true_iff in He.
    destruct (handle_keeps_error e s c rest He Hs) as (c' & rest' & H').
    cbn [fold_left]. eapply IH; eauto. }
  destruct msg as [|c rest]; [contradiction|].
  destruct (H (App.onError (String c rest) st) c rest eq_refl) as (c' & rest' & E).
  exists (String c' rest'). unfold App.render. rewrite E. split; [reflexivity | discriminate].
Qed.

Lemma error_view_is_final_witness :
  exists shown,
    App.render (fold_left App.handle [App.EvReady; App.EvSubmit example_config; App.EvComplete]
                          (App.onError "Docker failed to start within 30 seconds" App.initial))
    = App.VError shown /\ shown <> "".
Proof.
  apply (error_view_is_final [App.EvReady; App.EvSubmit example_config; App.EvComplete]
           App.initial "Docker failed to start within 30 seconds").
  - discriminate.
  - reflexivity.
Defined.

End AppMore.

(** ** The configuration line read back *)

Module RoundTrip.
Import JS Json Bridge Inputs Specs.

Lemma append_assoc (a b c : string) : (a +:+ b) +:+ c = a +:+ (b +:+ c).
Proof.
  induction a as [|x a IH]; [reflexivity|].
  change ((String x a +:+ b) +:+ c) with (String x ((a +:+ b) +:+ c)). now rewrite IH.
Qed.

(** One escaped character is read back as the character. *)
Lemma parse_escapeChar c rest :
  parse_string_body (escapeChar c +:+ rest) =
  match parse_string_body rest with
  | Some (body, rest') => Some (String c body, rest')
  | None => None
  end.
Proof. destruct c as [[] [] [] [] [] [] [] []]; reflexivity. Qed.

Lemma parse_escapeString s rest :
  parse_string_body (escapeString s +:+ String dquote rest) = Some (s, rest).
Proof.
  induction s as [|c s IH]; [reflexivity|].
  cbn [escapeString]. rewrite append_assoc, parse_escapeChar. now rewrite IH.
Qed.


(** The parser on a text that starts with a quote. *)
Lemma parse_members_key f X acc :
  parse_members (S f) (String dquote X) acc =
  match parse_string_body X with
  | Some (k, rest1) =>
      match skip_ws rest1 with
      | String c2 rest2 =>
          if Ascii.eqb c2 ":"%char then
            match parse_value f rest2 with
            | Some (v, rest3) =>
                match skip_ws rest3 with
                | String c4 rest4 =>
                    if Ascii.eqb c4 ","%char
                    then parse_members f rest4 (setProp k v acc)
                    else if Ascii.eqb c4 "}"%char
                    then Some (JObj (setProp k v acc), rest4)
                    else None
                | EmptyString => None
                end
            | None => None
            end
          else None
      | EmptyString => None
      end
  | None => None
  end.
Proof. reflexivity. Qed.

Lemma parse_value_string f X :
  parse_value (S f) (String dquote X) =
  match parse_string_body X with
  | Some (str, rest1) => Some (JStr str, rest1)
  | None => None
  end.
Proof. reflexivity. Qed.

Lemma parse_value_object f X :
  parse_value (S f) (String "{" (String dquote X)) =
  parse_members f (String dquote X) [].
Proof. reflexivity. Qed.

Lemma skip_ws_keep c s : is_json_ws c = false -> skip_ws (String c s) = String c s.
Proof. intros H. cbn [skip_ws]. now rewrite H. Qed.


Lemma quoteString_app s rest : quoteString s +:+ rest = quoted s rest.
Proof.
  unfold quoteString, quoted.
  change (String dquote (escapeString s) +:+ String dquote "")
    with (String dquote (escapeString s +:+ String dquote "")).
  change (String dquote (escapeString s +:+ String dquote "") +:+ rest)
    with (String dquote ((escapeString s +:+ String dquote "") +:+ rest)).
  now rewrite append_assoc.
Qed.




Lemma renderField_app kv rest :
  renderField kv +:+ rest = fieldText (fst kv) (snd kv) rest.
Proof.
  unfold renderField, fieldText.
  rewrite append_assoc, quoteString_app.
  change ((":" +:+ quoteString (snd kv)) +:+ rest)
    with (String ":" (quoteString (snd kv) +:+ rest)).
  now rewrite quoteString_app.
Qed.

Lemma join_fieldsText fields rest :
  fields <> [] ->
  join "," (map renderField fields) +:+ String "}" rest = fieldsText fields rest.
Proof.
  induction fields as [|[k v] more IH]; [congruence|]. intros _.
  destruct more as [|kv more].
  - cbn [map join fieldsText]. apply (renderField_app (k, v)).
  - change (join "," (map renderField ((k, v) :: kv :: more)))
      with (renderField (k, v) +:+ "," +:+ join "," (map renderField (kv :: more))).
    rewrite !append_assoc, (renderField_app (k, v)).
    change ("," +:+ join "," (map renderField (kv :: more)) +:+ String "}" rest)
      with (String "," (join "," (map renderField (kv :: more)) +:+ String "}" rest)).
    rewrite IH by discriminate. now destruct kv.
Qed.

(** One member, then what follows it. *)
Lemma parse_field fuel k v rest acc :
  parse_members (S (S fuel)) (fieldText k v rest) acc =
  match skip_ws rest with
  | String c rest' =>
      if Ascii.eqb c ","%char
      then parse_members (S fuel) rest' (setProp k (JStr v) acc)
      else if Ascii.eqb c "}"%char
      then Some (JObj (setProp k (JStr v) acc), rest')
      else None
  | EmptyString => None
  end.
Proof.
  unfold fieldText, quoted.
  rewrite parse_members_key, parse_escapeString.
  rewrite (skip_ws_keep ":"%char _ eq_refl).
  change (Ascii.eqb ":"%char ":"%char) with true. cbv iota.
  rewrite parse_value_string, parse_escapeString. reflexivity.
Qed.


Lemma parse_fields fields : forall acc fuel rest,
  fields <> [] -> length fields < fuel ->
  parse_members fuel (fieldsText fields rest) acc =
  Some (JObj (record_fields fields acc), rest).
Proof.
  induction fields as [|[k v] more IH]; intros acc fuel rest Hne Hlen; [congruence|].
  destruct fuel as [|[|fuel]]; cbn [length] in Hlen; try lia.
  destruct more as [|kv more].
  - cbn [fieldsText]. rewrite parse_field.
    rewrite (skip_ws_keep "}"%char _ eq_refl). reflexivity.
  - change (fieldsText ((k, v) :: kv :: more) rest)
      with (fieldText k v (String "," (fieldsText (kv :: more) rest))).
    rewrite parse_field.
    rewrite (skip_ws_keep ","%char _ eq_refl).
    change (Ascii.eqb ","%char ","%char) with true. cbv iota.
    rewrite IH; [reflexivity | discriminate | cbn in *; lia].
Qed.

Lemma config_line_text config :
  config_line config =
  String "{" (fieldsText (setFields config) newline).
Proof.
  rewrite WireFacts.config_line_form.
  assert (Hm : (quoteString "target" +:+ ":" +:+ quoteString (target config))
               :: present "objective" (objective config)
               ++ present "provider" (provider config)
               ++ present "model" (model config)
               = map renderField (setFields config)).
  { destruct config as [t [o|] [p|] [m|]]; reflexivity. }
  rewrite Hm.
  change ("{" +:+ join "," (map renderField (setFields config)) +:+ "}")
    with (String "{" (join "," (map renderField (setFields config)) +:+ "}")).
  change (String "{" (join "," (map renderField (setFields config)) +:+ "}") +:+ newline)
    with (String "{" ((join "," (map renderField (setFields config)) +:+ "}") +:+ newline)).
  rewrite append_assoc.
  change ("}" +:+ newline) with (String "}" newline).
  now rewrite join_fieldsText by discriminate.
Qed.

(** X17.  The configuration line, read back.  For every configuration
    -- whatever characters its strings hold: quotes, backslashes, control
    characters -- parsing the line the bridge writes gives the object
    whose keys are [target] and exactly those of [objective], [provider]
    and [model] that are set, each with the string it was given. *)
Theorem config_line_round_trip config :
  JSON_parse (config_line config) =
  Some (JObj (map (fun kv => (fst kv, JStr (snd kv))) (setFields config))).
Proof.
  unfold JSON_parse. rewrite config_line_text.
  set (fields := setFields config).
  assert (Hcount : fields <> [] /\ length fields <= 4).
  { subst fields. destruct config as [t [o|] [p|] [m|]]; cbn; split; (discriminate || lia). }
  destruct Hcount as [Hne Hcount].
  assert (Hquote : exists X, fieldsText fields newline = String dquote X).
  { destruct fields as [|[k v] [|kv more]]; [congruence| |]; cbn [fieldsText];
      unfold fieldText, quoted; eauto. }
  destruct Hquote as [X HX].
  assert (Hfuel : exists f, (2 * String.length (String "{" (fieldsText fields newline)) + 2
                             = S (S (4 + f)))%nat).
  { exists (2 * String.length X). rewrite HX. cbn [String.length]. lia. }
  destruct Hfuel as [f ->].
  assert (Hlen : length fields < S (4 + f)) by lia.
  assert (Hval : parse_value (S (S (4 + f))) (String "{" (fieldsText fields newline)) =
                 parse_members (S (4 + f)) (fieldsText fields newline) []).
  { rewrite HX. apply parse_value_object. }
  rewrite Hval, (parse_fields fields [] _ newline Hne Hlen).
  subst fields. destruct config as [t [o|] [p|] [m|]]; reflexivity.
Qed.

End RoundTrip.

(** ** The keys of the events that carry a message *)

Module KeyFacts.
Import JS Json Bridge ScanDisplay Types Inputs Specs.



Lemma pretty_N_char_digit x : is_digit (pretty_N_char x) = true.
Proof. unfold pretty_N_char. repeat case_match; reflexivity. Qed.

Lemma all_digits_app a b : all_digits (a +:+ b) = all_digits a && all_digits b.
Proof.
  induction a as [|c a IH]; [reflexivity|].
  change (String c a +:+ b) with (String c (a +:+ b)). cbn [all_digits].
  now rewrite IH, andb_assoc.
Qed.

(** The digits [pretty_N_go] puts in front of its accumulator. *)
Lemma pretty_N_go_digits x : forall s,
  exists d, pretty_N_go x s = d +:+ s /\ all_digits d = true /\ ((0 < x)%N -> d <> "").
Proof.
  induction (N.lt_wf_0 x) as [x _ IH]; intros s.
  assert (x = 0 \/ 0 < x)%N as [->|Hpos] by lia.
  - exists "". rewrite pretty_N_go_0. repeat split. lia.
  - rewrite pretty_N_go_step by done.
    destruct (IH (x `div` 10)%N (N.div_lt x 10 Hpos eq_refl)
                 (String (pretty_N_char (x `mod` 10)) s)) as (d & E & Hd & _).
    exists (d +:+ String (pretty_N_char (x `mod` 10)) ""). rewrite E. repeat split.
    + clear. induction d as [|c d IHd]; [reflexivity|].
      change (String c d +:+ String (pretty_N_char (x `mod` 10)) s)
        with (String c (d +:+ String (pretty_N_char (x `mod` 10)) s)).
      now rewrite IHd.
    + rewrite all_digits_app, Hd. cbn [all_digits andb].
      now rewrite pretty_N_char_digit.
    + intros _. now destruct d.
Qed.

Lemma pretty_N_digits (x : N) :
  exists d, pretty x = d /\ all_digits d = true /\ d <> "".
Proof.
  unfold pretty, pretty_N. case_decide as Hx.
  - exists "0". now repeat split.
  - destruct (pretty_N_go_digits x "") as (d & E & Hd & Hne).
    exists d. split; [|split; [exact Hd | apply Hne; lia]].
    rewrite E. clear. induction d as [|c d IH]; [reflexivity|].
    change (String c d +:+ "") with (String c (d +:+ "")). now rewrite IH.
Qed.

(** A time in its decimal form: a sign and digits. *)
Lemma pretty_Z_digits (z : Z) :
  exists sign d, pretty z = sign +:+ d /\ (sign = "" \/ sign = "-") /\
                 all_digits d = true /\ d <> "".
Proof.
  destruct z as [|p|p]; unfold pretty, pretty_Z.
  - exists "", "0". now repeat split; auto.
  - destruct (pretty_N_digits (Npos p)) as (d & E & Hd & Hne).
    exists "", d. repeat split; auto.
  - destruct (pretty_N_digits (Npos p)) as (d & E & Hd & Hne).
    exists "-", d. unfold pretty, pretty_positive. rewrite E. repeat split; auto.
Qed.

(** Digits, a dash, and a text: the digits end at the dash. *)
Lemma digits_dash d1 : forall d2 m1 m2,
  all_digits d1 = true -> all_digits d2 = true ->
  d1 +:+ String "-" m1 = d2 +:+ String "-" m2 -> d1 = d2 /\ m1 = m2.
Proof.
  induction d1 as [|c1 d1 IH]; intros [|c2 d2] m1 m2 H1 H2 E; cbn in *.
  - injection E as ->. auto.
  - injection E as <- _. discriminate.
  - injection E as -> _. discriminate.
  - injection E as -> E. apply andb_prop in H1 as [_ H1]. apply andb_prop in H2 as [_ H2].
    destruct (IH d2 m1 m2 H1 H2 E) as [-> ->]. auto.
Qed.

Lemma time_dash (z1 z2 : Z) m1 m2 :
  pretty z1 +:+ String "-" m1 = pretty z2 +:+ String "-" m2 -> z1 = z2 /\ m1 = m2.
Proof.
  destruct (pretty_Z_digits z1) as (s1 & d1 & E1 & Hs1 & Hd1 & Hn1).
  destruct (pretty_Z_digits z2) as (s2 & d2 & E2 & Hs2 & Hd2 & Hn2).
  intros E. rewrite E1, E2 in E.
  assert (Hd : s1 = s2 /\ d1 = d2 /\ m1 = m2).
  { destruct Hs1 as [-> | ->], Hs2 as [-> | ->]; cbn in E.
    - destruct (digits_dash d1 d2 m1 m2 Hd1 Hd2 E) as [-> ->]. auto.
    - destruct d1 as [|c d1]; [congruence|]. cbn in *. injection E as -> _. discriminate.
    - destruct d2 as [|c d2]; [congruence|]. cbn in *. injection E as <- _. discriminate.
    - injection E as E. destruct (digits_dash d1 d2 m1 m2 Hd1 Hd2 E) as [-> ->]. auto. }
  destruct Hd as (-> & -> & ->). split; [|reflexivity].
  apply (inj pretty). now rewrite E1, E2.
Qed.

Lemma progress_key step message reasoning ts :
  dedupKey (ProgressEvent step message reasoning ts) =
  Some ("progress-" +:+ pretty ts +:+ "-" +:+ message).
Proof. reflexivity. Qed.

Lemma error_key message stack ts :
  dedupKey (ErrorEvent message stack ts) =
  Some ("error-" +:+ pretty ts +:+ "-" +:+ message).
Proof. destruct stack; reflexivity. Qed.

(** X18.  On the events that carry a message the key is exact.  Two
    [progress] events have the same key exactly when they have the same
    timestamp and the same message, and likewise two [error] events; so
    among these only a repetition of time and message is dropped, and two
    events that differ in either are both recorded. *)
Theorem message_keys_are_exact s1 m1 r1 t1 s2 m2 r2 t2 k1 k2 :
  (dedupKey (ProgressEvent s1 m1 r1 t1) = dedupKey (ProgressEvent s2 m2 r2 t2)
   <-> t1 = t2 /\ m1 = m2) /\
  (dedupKey (ErrorEvent m1 k1 t1) = dedupKey (ErrorEvent m2 k2 t2)
   <-> t1 = t2 /\ m1 = m2).
Proof.
  rewrite !progress_key, !error_key. split; split.
  - intros [= E]. apply time_dash. exact E.
  - now intros [-> ->].
  - intros [= E]. apply time_dash. exact E.
  - now intros [-> ->].
Qed.

End KeyFacts.
